(** * Pricing and transaction construction of the Tensor buy/offer actions

    A shallow embedding of
      - [examples/tensor/buy-offer-item/transaction-utils.ts] (module [Tensor]),
      - the SOL-transfer transaction utilities (module [Transfer]),
      - the amount path of the offer routes of [route.ts] (module [Route]),
      - the handlers of both variants of [route.ts] (modules [TransferRoute]
        and [TensorRoute]).

    JavaScript [number]s are IEEE-754 binary64 values: they are modelled by
    Rocq's primitive floats, whose operations are the processor's and whose
    specification ([FloatAxioms]) relates them to [SpecFloat]. *)

From Stdlib Require Import ZArith Lia Bool List String Ascii.
From Stdlib Require Import Uint63 Floats.
Import ListNotations.

Local Open Scope float_scope.

(** ** JavaScript numbers *)

Module JS.

(** A [number]. *)
Definition number := float.

(** The number an integer [0 <= z < 2^63] denotes: [z] itself below
    [2^53], the nearest binary64 value above. *)
Definition Z2F (z : Z) : number := of_uint63 (Uint63.of_Z z).

(** Global [isNaN] on a number. *)
Definition isNaN (x : number) : bool := is_nan x.

(** [Number.isInteger]: finite, and no bit of the mantissa lies below the
    binary point. *)
Definition SFis_integer (x : spec_float) : bool :=
  match x with
  | S754_zero _ => true
  | S754_finite _ m e =>
      (0 <=? e)%Z || (Z.land (Zpos m) (Z.ones (- e)) =? 0)%Z
  | _ => false
  end.

Definition isInteger (x : number) : bool := SFis_integer (Prim2SF x).

(** [x >= 0] on numbers (false on NaN, true on both zeros). *)
Definition nonneg (x : number) : bool := (0 <=? x).

(** [x >= 0 && x < Infinity]. *)
Definition finite_nonneg (x : number) : bool :=
  (0 <=? x) && (x <? infinity).

(** [x == y], the IEEE equality of two numbers. *)
Definition looseEq (x y : number) : bool := (x =? y).

(** Arguments as a callee sees them: an omitted argument is [undefined]. *)
Inductive arg (A : Type) : Type :=
| undefined
| null
| value (a : A).
Arguments undefined {A}.
Arguments null {A}.
Arguments value {A} a.

(** Truthiness of a [string | null] (or missing) argument: only a
    non-empty string is truthy. *)
Definition truthy (a : arg string) : bool :=
  match a with
  | value s => negb (String.eqb s EmptyString)
  | _ => false
  end.

End JS.

Import JS.

(** ** Shapes of specification floats *)

Module SF.

(** Not NaN, with sign [s]. *)
Inductive signed (s : bool) : spec_float -> Prop :=
| signed_zero : signed s (S754_zero s)
| signed_infinity : signed s (S754_infinity s)
| signed_finite m e : signed s (S754_finite s m e).

(** Not NaN and not below zero. *)
Inductive nn : spec_float -> Prop :=
| nn_zero s : nn (S754_zero s)
| nn_infinity : nn (S754_infinity false)
| nn_finite m e : nn (S754_finite false m e).

(** Finite and not below zero. *)
Inductive nnfin : spec_float -> Prop :=
| nnfin_zero s : nnfin (S754_zero s)
| nnfin_finite m e : nnfin (S754_finite false m e).

(** The binary64 representation of an integer of magnitude below [2^53]:
    the mantissa is the integer shifted up to 53 digits. *)
Definition SFint (n : Z) : spec_float :=
  match n with
  | Z0 => S754_zero false
  | Zpos p =>
      S754_finite false
        (Z.to_pos (Zpos p * 2 ^ (53 - Zpos (digits2_pos p))))
        (Zpos (digits2_pos p) - 53)
  | Zneg p =>
      S754_finite true
        (Z.to_pos (Zpos p * 2 ^ (53 - Zpos (digits2_pos p))))
        (Zpos (digits2_pos p) - 53)
  end.

End SF.

Import SF.

(** ** The pricing function of [transaction-utils.ts] *)

Definition TENSOR_FEE_BPS : number := 150.

(** The values [getTotalPrice] computes on its way: the price it was given,
    its two local constants and the sum it returns. *)
Record PricingResult := {
  basePrice : number;
  marketplaceFee : number;
  royaltyFee : number;
  total : number
}.

Definition pricing (price royaltyBps : number) (tokenStandard : arg string)
  : PricingResult :=
  let marketPlaceFee := (price * TENSOR_FEE_BPS) / 10000 in
  let royalty :=
    if truthy tokenStandard then (price * royaltyBps) / 10000 else 0 in
  {| basePrice := price;
     marketplaceFee := marketPlaceFee;
     royaltyFee := royalty;
     total := price + royalty + marketPlaceFee |}.

Definition getTotalPrice (price royaltyBps : number)
  (tokenStandard : arg string) : number :=
  let marketPlaceFee := (price * TENSOR_FEE_BPS) / 10000 in
  let royalty :=
    if truthy tokenStandard then (price * royaltyBps) / 10000 else 0 in
  price + royalty + marketPlaceFee.

(** ** Errors and asynchronous computations *)

(** The error kinds of the system.  In the code they are thrown [Error]
    objects (or a 4xx answer of the route); the constructor records which. *)
Inductive Error : Type :=
| InvalidAccount        (* web3.js: 'Invalid public key input' *)
| InvalidAmount         (* route: 'Offer amount is not a valid number',
                           'Price in Lamports is not a valid number';
                           web3.js: the RangeError of [BigInt(lamports)]
                           and of the u64 encoding *)
| ListingNotFound       (* 'Item details or listing not found' *)
| UpstreamUnavailable.  (* a rejected RPC promise *)

Inductive result (A : Type) : Type :=
| Ok (a : A)
| Err (e : Error).
Arguments Ok {A} a.
Arguments Err {A} e.

(** A blockhash is an opaque token. *)
Definition Blockhash := string.

(** The RPC connection, as far as the builders observe it: the answers its
    node gives to the successive [getLatestBlockhash] requests still to come.
    The ledger moves on between requests, so the answers may differ; a
    request that finds no answer is a rejected promise. *)
Definition Connection := list Blockhash.

(** An [async] function: it runs against the connection, and either
    resolves to a value or rejects. *)
Definition Async (A : Type) : Type := Connection -> result A * Connection.

Definition ret {A} (a : A) : Async A := fun c => (Ok a, c).

Definition throw {A} (e : Error) : Async A := fun c => (Err e, c).

Definition bind {A B} (m : Async A) (k : A -> Async B) : Async B :=
  fun c =>
    match m c with
    | (Ok a, c') => k a c'
    | (Err e, c') => (Err e, c')
    end.

Notation "x <- m ;; k" := (bind m (fun x => k))
  (at level 61, m at next level, right associativity).

(** A constructor that throws: [None] is the thrown case. *)
Definition orThrow {A} (e : Error) (o : option A) : Async A :=
  match o with
  | Some a => ret a
  | None => throw e
  end.

(** [await connection.getLatestBlockhash()], keeping the [blockhash] field. *)
Definition getLatestBlockhash : Async Blockhash :=
  fun c =>
    match c with
    | b :: rest => (Ok b, rest)
    | [] => (Err UpstreamUnavailable, [])
    end.

(** ** The parts of [@solana/web3.js] the builders use *)

Module Web3.

(** Modelled from the spec: the unit-conversion constant [LAMPORTS_PER_SOL]
    that the code imports from web3.js; the spec gives it as 10^9. *)
Definition LAMPORTS_PER_SOL : number := 1000000000.

(** A public key is the big number its 32 bytes encode. *)
Record PublicKey := { _bn : N }.

(** The parameters [SystemProgram.transfer] is called with identify the
    instruction it builds. *)
Record TransactionInstruction := {
  fromPubkey : PublicKey;
  toPubkey : PublicKey;
  lamports : number
}.

(** The amounts [SystemProgram.transfer] accepts: it converts [lamports]
    with [BigInt], which throws unless the number is an integer, and
    encodes the result as a u64, which throws below 0 and from 2^64 on. *)
Definition u64_lamports (x : number) : bool :=
  isInteger x && (0 <=? x) && (x <? 18446744073709551616).

(** What [new VersionedTransaction(new TransactionMessage({...})
    .compileToV0Message())] is built from. *)
Record VersionedTransaction := {
  payerKey : PublicKey;
  recentBlockhash : Blockhash;
  instructions : list TransactionInstruction
}.

(** *** Base58 addresses

    [new PublicKey(s)] decodes [s] from base58 and throws unless exactly 32
    bytes come out.  This is the library's behaviour, kept here to run the
    builders on concrete addresses; the theorems on the builders take the
    constructor as a parameter. *)
Definition alphabet : string :=
  "123456789ABCDEFGHJKLMNPQRSTUVWXYZabcdefghijkmnopqrstuvwxyz".

Fixpoint index_in (a : ascii) (s : string) (i : N) : option N :=
  match s with
  | EmptyString => None
  | String b s' => if Ascii.eqb a b then Some i else index_in a s' (i + 1)
  end.

Fixpoint leading_ones (s : string) : N :=
  match s with
  | String "1" s' => 1 + leading_ones s'
  | _ => 0
  end.

Fixpoint digits58 (s : string) (acc : N) : option N :=
  match s with
  | EmptyString => Some acc
  | String a s' =>
      match index_in a alphabet 0 with
      | Some d => digits58 s' (acc * 58 + d)
      | None => None
      end
  end.

Definition byte_length (v : N) : N :=
  match v with
  | N0 => 0
  | _ => N.log2 v / 8 + 1
  end.

Definition bs58_PublicKey (s : string) : option PublicKey :=
  match digits58 s 0 with
  | Some v =>
      if (leading_ones s + byte_length v =? 32)%N
      then Some {| _bn := v |} else None
  | None => None
  end.

End Web3.

Import Web3.

(** ** The SOL-transfer builders *)

Module Transfer.
Section WithWeb3.

(** [new PublicKey(s)]: [None] when the constructor throws. *)
Variable PublicKey_new : string -> option PublicKey.

(** [SystemProgram.transfer({fromPubkey, toPubkey, lamports})]: [None]
    when it throws. *)
Definition SystemProgram_transfer (from to : PublicKey) (amount : number)
  : option TransactionInstruction :=
  if u64_lamports amount
  then Some {| fromPubkey := from; toPubkey := to; lamports := amount |}
  else None.

Definition prepareTransaction
  (instrs : list TransactionInstruction) (payer : PublicKey)
  : Async VersionedTransaction :=
  blockhash <- getLatestBlockhash ;;
  let message :=
    {| payerKey := payer;
       recentBlockhash := blockhash;
       instructions := instrs |} in
  let transaction := message in
  ret transaction.

Definition createBuyNftTransaction (mint buyer : string) (price : number)
  : Async VersionedTransaction :=
  payer <- orThrow InvalidAccount (PublicKey_new buyer) ;;
  recipient <- orThrow InvalidAccount (PublicKey_new mint) ;;
  transfer <- orThrow InvalidAmount
                (SystemProgram_transfer payer recipient
                   (price * LAMPORTS_PER_SOL)) ;;
  let instrs := [ transfer ] in
  prepareTransaction instrs payer.

Definition createBidNftTransaction (mint bidder : string) (amount : number)
  : Async VersionedTransaction :=
  payer <- orThrow InvalidAccount (PublicKey_new bidder) ;;
  recipient <- orThrow InvalidAccount (PublicKey_new mint) ;;
  transfer <- orThrow InvalidAmount
                (SystemProgram_transfer payer recipient amount) ;;
  let instrs := [ transfer ] in
  prepareTransaction instrs payer.

End WithWeb3.
End Transfer.

(** ** The Tensor builder of [transaction-utils.ts] *)

Module Tensor.

(** The listing data the marketplace data service reports. *)
Record Listing := {
  price : string;
  seller : string
}.

Record ItemDetails := {
  onchainId : string;
  owner : string;
  listing : option Listing;
  sellRoyaltyFeeBPS : number
}.

(** The argument object of [getNftBuyTransaction]. *)
Record BuyRequest := {
  mintAddress : string;
  ownerAddress : string;
  buyerAddress : string;
  buyPrice : number;
  latestBlockhash : Blockhash
}.

Section WithApi.

(** The marketplace client of [api/tensor-api] and the built-in
    [parseInt(_, 10)]: [None] is [null]. *)
Variable getNftInfo : string -> option ItemDetails.
Variable getNftBuyTransaction : BuyRequest -> option string.
Variable parseInt : string -> number.

Definition createBuyNftTransaction (mint buyerAddress : string)
  : Async (option string) :=
  blockhash <- getLatestBlockhash ;;
  let itemDetails := getNftInfo mint in
  match itemDetails with
  | None => throw ListingNotFound
  | Some details =>
      match listing details with
      | None => throw ListingNotFound
      | Some l =>
          let totalPrice :=
            getTotalPrice (parseInt (price l)) (sellRoyaltyFeeBPS details)
              undefined in
          let transaction :=
            getNftBuyTransaction
              {| mintAddress := mint;
                 ownerAddress := seller l;
                 buyerAddress := buyerAddress;
                 buyPrice := totalPrice;
                 latestBlockhash := blockhash |} in
          ret transaction
      end
  end.

End WithApi.
End Tensor.

(** ** The amount path of the offer routes *)

Module Route.

(** [POST /item/{itemId}/offer/{offerAmount}], from the parsed path
    parameter [offerAmount = parseFloat(offerAmountParam)] to the price
    handed to [placeNftBid].  An empty parameter parses to NaN, so the
    guard [!offerAmountParam || isNaN(parseFloat(offerAmountParam))] is
    [isNaN offerAmount]. *)
Definition computeBidAmount (offerAmount : number) : result number :=
  if isNaN offerAmount then Err InvalidAmount
  else
    let priceInLamports := offerAmount * LAMPORTS_PER_SOL in
    if isNaN priceInLamports then Err InvalidAmount
    else Ok priceInLamports.

(** [POST /item/{itemId}/offer]: the body's [offerAmount], in SOL, goes to
    [createBidNftTransaction] multiplied; the route itself tests no
    amount. *)
Definition offerLamports (offerAmount : number) : number :=
  offerAmount * LAMPORTS_PER_SOL.

(** [GET /item/{itemId}]: the price displayed, in SOL, for a listing price
    in lamports, before formatting. *)
Definition uiPrice (listingPrice : number) : number :=
  listingPrice / LAMPORTS_PER_SOL.

End Route.

(** ** The operations as the specification words them *)

Module Spec.

(** [buildTransferTransaction(payer, recipient, amount, recentBlockhash)]:
    one transfer of [amount] from [payer] to [recipient], anchored to the
    blockhash the caller supplies. *)
Definition buildTransferTransaction
  (payer recipient : PublicKey) (amount : number) (bh : Blockhash)
  : VersionedTransaction :=
  {| payerKey := payer;
     recentBlockhash := bh;
     instructions :=
       [ {| fromPubkey := payer; toPubkey := recipient;
            lamports := amount |} ] |}.

End Spec.

(** ** The routes of [route.ts] *)

Module Http.

Record ActionParameter := {
  parameter_name : string;
  parameter_label : string
}.

(** [parameters] is optional. *)
Record LinkedAction := {
  action_label : string;
  action_href : string;
  action_parameters : option (list ActionParameter)
}.

(** What the [actions] array can hold once the [null]s are filtered out:
    an action, or the string that [uiPrice && {...}] leaves when [uiPrice]
    is empty. *)
Inductive ActionEntry : Type :=
| entry_string (s : string)
| entry_action (a : LinkedAction).

Record ActionGetResponse := {
  icon : string;
  label : string;
  title : string;
  description : string;
  actions : list ActionEntry
}.

Inductive Body : Type :=
| ActionError (message : string)
| GetBody (response : ActionGetResponse)
| PostBody (transaction : string).

(** [c.json(body, status)]. *)
Record Response := {
  body : Body;
  status : nat
}.

(** An item as the routes read it: the fields the builder reads, and those
    of the display. *)
Record Item := {
  details : Tensor.ItemDetails;
  imageUri : string;
  name : string;
  item_description : string
}.

(** [itemDetails.listing?.price]. *)
Definition listingPrice (item : Item) : arg string :=
  match Tensor.listing (details item) with
  | Some l => value (Tensor.price l)
  | None => undefined
  end.

(** [xs.filter((x) => x !== null)]. *)
Fixpoint filter_null {A : Type} (xs : list (option A)) : list A :=
  match xs with
  | [] => []
  | None :: xs' => filter_null xs'
  | Some x :: xs' => x :: filter_null xs'
  end.

(** [uiPrice && action], for a [uiPrice] that is a string or [null]; the
    action is only built, around the string, when the string is truthy. *)
Definition and_action (uiPrice : option string)
  (action : string -> LinkedAction) : option ActionEntry :=
  match uiPrice with
  | None => None
  | Some s =>
      if String.eqb s EmptyString then Some (entry_string s)
      else Some (entry_action (action s))
  end.

(** [uiPrice ? yes : no], likewise. *)
Definition if_price (uiPrice : option string)
  (yes : string -> string) (no : string) : string :=
  match uiPrice with
  | None => no
  | Some s => if String.eqb s EmptyString then no else yes s
  end.

(** [!transaction], for a transaction that is a string or [null]. *)
Definition falsy_string (s : option string) : bool :=
  match s with
  | Some s => String.eqb s EmptyString
  | None => true
  end.

Definition offerParameters : list ActionParameter :=
  [ {| parameter_name := "offerAmount";
       parameter_label := "Enter an offer amount in SOL" |} ].

Definition failedToPrepare : Response :=
  {| body := ActionError "Failed to prepare transaction"; status := 500 |}.

End Http.

(** *** The routes over the SOL-transfer builders *)

Module TransferRoute.
Import Http.

Section WithCollaborators.

Variable getNftInfo : string -> option Item.
Variable formatTokenAmount : number -> string.
Variable parseInt : string -> number.
(** The number that [*] coerces a string to. *)
Variable toNumber : string -> number.
Variable PublicKey_new : string -> option PublicKey.
(** [Buffer.from(transaction.serialize()).toString('base64')]. *)
Variable serialize : VersionedTransaction -> string.

Definition uiPriceOf (itemDetails : Item) : option string :=
  let buyNowPriceNetFees := listingPrice itemDetails in
  match buyNowPriceNetFees with
  | value p =>
      if truthy buyNowPriceNetFees
      then Some (formatTokenAmount (Route.uiPrice (parseInt p)))
      else None
  | _ => None
  end.

(** [GET /item/{itemId}]. *)
Definition getItem (itemId : string) : Response :=
  match getNftInfo itemId with
  | None =>
      {| body := ActionError ("Item " ++ itemId ++ " not found")%string;
         status := 422 |}
  | Some itemDetails =>
      let uiPrice := uiPriceOf itemDetails in
      let acts :=
        filter_null
          [ and_action uiPrice (fun uiPrice =>
              {| action_label := ("BUY " ++ uiPrice ++ " SOL")%string;
                 action_href := ("/api/item/" ++ itemId ++ "/buy")%string;
                 action_parameters := None |});
            Some (entry_action
              {| action_label := "Make an Offer";
                 action_href := ("/api/item/" ++ itemId ++ "/offer")%string;
                 action_parameters := Some offerParameters |}) ] in
      {| body :=
           GetBody
             {| icon := imageUri itemDetails;
                label :=
                  if_price uiPrice
                    (fun uiPrice => (uiPrice ++ " SOL")%string)
                    "Make an Offer";
                title := name itemDetails;
                description := item_description itemDetails;
                actions := acts |};
         status := 200 |}
  end.

(** [POST /item/{itemId}/buy], from the parsed body on. *)
Definition postBuy (itemId account : string)
  : Connection -> Response * Connection :=
  fun c =>
    match getNftInfo itemId with
    | None =>
        ({| body := ActionError ("Item " ++ itemId ++ " not found")%string;
            status := 422 |}, c)
    | Some itemDetails =>
        match listingPrice itemDetails with
        | value p =>
            if truthy (value p) then
              match
                Transfer.createBuyNftTransaction PublicKey_new
                  (Tensor.onchainId (details itemDetails)) account
                  (toNumber p) c
              with
              | (Ok transaction, c') =>
                  ({| body := PostBody (serialize transaction);
                      status := 200 |}, c')
              | (Err _, c') => (failedToPrepare, c')
              end
            else
              ({| body :=
                    ActionError
                      ("Item " ++ itemId ++ " is not listed for sale")%string;
                  status := 422 |}, c)
        | _ =>
            ({| body :=
                  ActionError
                    ("Item " ++ itemId ++ " is not listed for sale")%string;
                status := 422 |}, c)
        end
    end.

(** [POST /item/{itemId}/offer], from the parsed body on. *)
Definition postOffer (itemId account : string) (offerAmount : number)
  : Connection -> Response * Connection :=
  fun c =>
    match getNftInfo itemId with
    | None =>
        ({| body := ActionError ("Item " ++ itemId ++ " not found")%string;
            status := 422 |}, c)
    | Some itemDetails =>
        match
          Transfer.createBidNftTransaction PublicKey_new
            (Tensor.onchainId (details itemDetails)) account
            (Route.offerLamports offerAmount) c
        with
        | (Ok transaction, c') =>
            ({| body := PostBody (serialize transaction);
                status := 200 |}, c')
        | (Err _, c') => (failedToPrepare, c')
        end
    end.

End WithCollaborators.
End TransferRoute.

(** *** The routes over the Tensor marketplace client *)

Module TensorRoute.
Import Http.

(** The argument object of [placeNftBid]. *)
Record BidRequest := {
  targetID : string;
  ownerAddress : string;
  price : number;
  buyerAddress : string;
  latestBlockhash : Blockhash
}.

Section WithCollaborators.

Variable getNftInfo : string -> option Item.
Variable getNftBuyTransaction : Tensor.BuyRequest -> option string.
Variable placeNftBid : BidRequest -> option string.
Variable formatTokenAmount : number -> string.
(** [parseInt(_)], [parseInt(_, 10)] and [parseFloat(_)]. *)
Variable parseInt : string -> number.
Variable parseInt10 : string -> number.
Variable parseFloat : string -> number.

Definition uiPriceOf (itemDetails : Item) : option string :=
  let buyNowPriceNetFees := listingPrice itemDetails in
  match buyNowPriceNetFees with
  | value p =>
      if truthy buyNowPriceNetFees
      then Some (formatTokenAmount (Route.uiPrice (parseInt p)))
      else None
  | _ => None
  end.

(** [GET /item/{itemId}]. *)
Definition getItem (itemId : string) : Response :=
  if String.eqb itemId EmptyString then
    {| body := ActionError "Item ID is required"; status := 400 |}
  else
    match getNftInfo itemId with
    | None =>
        {| body := ActionError ("Item " ++ itemId ++ " not found")%string;
           status := 422 |}
    | Some itemDetails =>
        let uiPrice := uiPriceOf itemDetails in
        let acts :=
          filter_null
            [ and_action uiPrice (fun uiPrice =>
                {| action_label := ("BUY " ++ uiPrice ++ " SOL")%string;
                   action_href :=
                     ("/api/tensor/buy-offer-item/item/" ++ itemId
                      ++ "/buy")%string;
                   action_parameters := None |});
              Some (entry_action
                {| action_label := "Make an Offer";
                   action_href :=
                     ("/api/tensor/buy-offer-item/item/" ++ itemId
                      ++ "/offer/{offerAmount}")%string;
                   action_parameters := Some offerParameters |}) ] in
        {| body :=
             GetBody
               {| icon := imageUri itemDetails;
                  label :=
                    if_price uiPrice
                      (fun uiPrice => (uiPrice ++ " SOL")%string)
                      "Make an Offer";
                  title := name itemDetails;
                  description := "Buy an NFT!";
                  actions := acts |};
           status := 200 |}
    end.

(** [POST /item/{itemId}/buy], from the parsed body on.  The builder looks
    the item up again, under its [onchainId]. *)
Definition postBuy (itemId account : string)
  : Connection -> Response * Connection :=
  fun c =>
    match getNftInfo itemId with
    | None =>
        ({| body := ActionError ("Item " ++ itemId ++ " not found")%string;
            status := 422 |}, c)
    | Some itemDetails =>
        if truthy (listingPrice itemDetails) then
          match
            Tensor.createBuyNftTransaction
              (fun mint => option_map details (getNftInfo mint))
              getNftBuyTransaction parseInt10
              (Tensor.onchainId (details itemDetails)) account c
          with
          | (Ok transaction, c') =>
              if falsy_string transaction then (failedToPrepare, c')
              else
                ({| body :=
                      PostBody
                        match transaction with
                        | Some t => t
                        | None => EmptyString
                        end;
                    status := 200 |}, c')
          | (Err _, c') => (failedToPrepare, c')
          end
        else
          ({| body :=
                ActionError
                  ("Item " ++ itemId ++ " is not listed for sale")%string;
              status := 422 |}, c)
    end.

(** [POST /item/{itemId}/offer/{offerAmount}], from the parsed body on. *)
Definition postOffer (itemId offerAmountParam account : string)
  : Connection -> Response * Connection :=
  fun c =>
    if String.eqb itemId EmptyString then
      ({| body := ActionError "Item ID is required"; status := 400 |}, c)
    else if String.eqb offerAmountParam EmptyString
            || isNaN (parseFloat offerAmountParam) then
      ({| body := ActionError "Offer amount is not a valid number";
          status := 400 |}, c)
    else
      let offerAmount := parseFloat offerAmountParam in
      match getNftInfo itemId with
      | None =>
          ({| body := ActionError ("Item " ++ itemId ++ " not found")%string;
              status := 422 |}, c)
      | Some itemDetails =>
          match getLatestBlockhash c with
          | (Err _, c') => (failedToPrepare, c')
          | (Ok blockhash, c') =>
              let priceInLamports := offerAmount * LAMPORTS_PER_SOL in
              if isNaN priceInLamports then (failedToPrepare, c')
              else
                let transaction :=
                  placeNftBid
                    {| targetID := Tensor.onchainId (details itemDetails);
                       ownerAddress := Tensor.owner (details itemDetails);
                       price := priceInLamports;
                       buyerAddress := account;
                       latestBlockhash := blockhash |} in
                if falsy_string transaction then (failedToPrepare, c')
                else
                  ({| body :=
                        PostBody
                          match transaction with
                          | Some t => t
                          | None => EmptyString
                          end;
                      status := 200 |}, c')
          end
      end.

End WithCollaborators.
End TensorRoute.

(** ** Sample requests *)

(** The item identifier the routes document, the system program's address,
    and the public keys they decode to. *)
Definition mintAddress0 : string :=
  "7DVeeik8cDUvHgqrTetG6fcDUHHZ8rW7dFHp1SsohKML".

Definition account0 : string := "11111111111111111111111111111111".

Definition payer0 : PublicKey := {| _bn := 0 |}.

Definition recipient0 : PublicKey :=
  {| _bn := 41770888303584664825182469704590413194766120054169974351158097339916299427011 |}.

Definition listing0 : Tensor.Listing :=
  {| Tensor.price := "1000000"; Tensor.seller := account0 |}.

Definition itemDetails0 : Tensor.ItemDetails :=
  {| Tensor.onchainId := mintAddress0;
     Tensor.owner := account0;
     Tensor.listing := Some listing0;
     Tensor.sellRoyaltyFeeBPS := 500 |}.

(** The sample item as the routes read it, and a stand-in for the
    serialization that keeps the blockhash of the envelope. *)
Definition item0 : Http.Item :=
  {| Http.details := itemDetails0;
     Http.imageUri := "https://example.org/item.png";
     Http.name := "Sample item";
     Http.item_description := "A sample item" |}.

Definition serialize0 (transaction : VersionedTransaction) : string :=
  recentBlockhash transaction.

(** * Facts on binary64 arithmetic *)

Module FloatFacts.

Local Open Scope Z_scope.

Lemma Prim2SF_0 : Prim2SF 0 = S754_zero false.
Proof. reflexivity. Qed.

Lemma SFcompare_refl x : x <> S754_nan -> SFcompare x x = Some Eq.
Proof.
  destruct x as [[]|[]| |[] m e]; simpl; try congruence; intros _;
    now rewrite Z.compare_refl, Pos.compare_cont_refl.
Qed.

Lemma is_nan_Prim2SF x : is_nan x = true <-> Prim2SF x = S754_nan.
Proof.
  unfold is_nan. rewrite eqb_spec. unfold SFeqb.
  destruct (Prim2SF x) as [s|s| |s m e] eqn:E.
  all: try (rewrite SFcompare_refl by discriminate; simpl; split; discriminate).
  simpl. tauto.
Qed.

Lemma shr_1_nonneg mrs : (0 <= shr_m mrs)%Z -> (0 <= shr_m (shr_1 mrs))%Z.
Proof.
  destruct mrs as [m r s]. destruct m as [|[p|p|]|p]; simpl; lia.
Qed.

Lemma iter_shr_1_nonneg p :
  forall mrs, (0 <= shr_m mrs)%Z -> (0 <= shr_m (iter_pos shr_1 p mrs))%Z.
Proof.
  induction p as [p IH|p IH|]; intros mrs H; simpl.
  - apply IH, IH, shr_1_nonneg, H.
  - apply IH, IH, H.
  - apply shr_1_nonneg, H.
Qed.

Lemma shr_record_of_loc_m m l : shr_m (shr_record_of_loc m l) = m.
Proof. destruct l as [|[]]; reflexivity. Qed.

Lemma shr_fexp_nonneg m e l :
  (0 <= m)%Z -> (0 <= shr_m (fst (shr_fexp prec emax m e l)))%Z.
Proof.
  intros H. unfold shr_fexp, shr.
  destruct (fexp prec emax (Zdigits2 m + e) - e)%Z; simpl;
    try apply iter_shr_1_nonneg; now rewrite shr_record_of_loc_m.
Qed.

Lemma round_nearest_even_nonneg m l :
  (0 <= m)%Z -> (0 <= round_nearest_even m l)%Z.
Proof.
  destruct l as [|[]]; simpl; try destruct (Z.even m); lia.
Qed.

(** Rounding a non-negative mantissa never yields NaN and keeps the sign. *)
Lemma binary_round_aux_signed s m e l :
  (0 <= m)%Z -> signed s (binary_round_aux prec emax s m e l).
Proof.
  intros H. unfold binary_round_aux.
  pose proof (shr_fexp_nonneg m e l H) as H1.
  destruct (shr_fexp prec emax m e l) as [mrs' e']. simpl in H1.
  pose proof (shr_fexp_nonneg _ e' loc_Exact
                (round_nearest_even_nonneg _ (loc_of_shr_record mrs') H1)) as H2.
  destruct (shr_fexp prec emax _ e' loc_Exact) as [mrs'' e'']. simpl in H2.
  destruct (shr_m mrs'') as [|p|p].
  - constructor.
  - destruct (e'' <=? emax - prec)%Z; constructor.
  - lia.
Qed.

(** Number of binary digits *)
Lemma digits2_pos_size p : digits2_pos p = Pos.size p.
Proof. induction p; simpl; congruence. Qed.

Lemma digits_bounds p :
  2 ^ (Zpos (digits2_pos p) - 1) <= Zpos p < 2 ^ Zpos (digits2_pos p).
Proof.
  rewrite digits2_pos_size.
  split.
  - pose proof (Pos.size_le p) as H.
    assert (Hs : Zpos (2 ^ Pos.size p) = 2 * 2 ^ (Zpos (Pos.size p) - 1)).
    { rewrite Pos2Z.inj_pow. rewrite <- Z.pow_succ_r by lia. f_equal. lia. }
    lia.
  - pose proof (Pos.size_gt p) as H.
    rewrite <- Pos2Z.inj_pow. lia.
Qed.

Lemma digits_unique p d :
  2 ^ (d - 1) <= Zpos p < 2 ^ d -> Zpos (digits2_pos p) = d.
Proof.
  intros [H1 H2]. pose proof (digits_bounds p) as [H3 H4].
  assert (0 < d).
  { destruct d as [|d|d]; [simpl in H2; lia | lia | rewrite Z.pow_neg_r in H2 by lia; lia]. }
  destruct (Z.lt_trichotomy (Zpos (digits2_pos p)) d) as [L|[E|G]]; [|exact E|].
  - exfalso. assert (2 ^ Zpos (digits2_pos p) <= 2 ^ (d - 1)) by (apply Z.pow_le_mono_r; lia). lia.
  - exfalso. assert (2 ^ d <= 2 ^ (Zpos (digits2_pos p) - 1)) by (apply Z.pow_le_mono_r; lia). lia.
Qed.

Lemma digits_shift p t :
  0 <= t -> Zdigits2 (Zpos p * 2 ^ t) = Zpos (digits2_pos p) + t.
Proof.
  intros Ht.
  assert (Hp : 0 < Zpos p * 2 ^ t) by (apply Z.mul_pos_pos; [lia| apply Z.pow_pos_nonneg; lia]).
  destruct (Zpos p * 2 ^ t) as [|q|q] eqn:E; try lia.
  unfold Zdigits2. apply digits_unique. rewrite <- E.
  pose proof (digits_bounds p) as [H1 H2].
  replace (Zpos (digits2_pos p) + t - 1) with ((Zpos (digits2_pos p) - 1) + t) by lia.
  rewrite !Z.pow_add_r by (pose proof (Pos2Z.is_pos (digits2_pos p)); lia).
  split.
  - apply Z.mul_le_mono_nonneg_r; [apply Z.pow_nonneg; lia | lia].
  - apply Z.mul_lt_mono_pos_r; [apply Z.pow_pos_nonneg; lia | lia].
Qed.

Lemma shr_1_double m :
  0 <= m -> shr_1 (Build_shr_record (2 * m) false false) = Build_shr_record m false false.
Proof. destruct m as [|p|p]; try lia; reflexivity. Qed.

Lemma pow2_xO p : 2 ^ Zpos p~0 = 2 ^ Zpos p * 2 ^ Zpos p.
Proof. rewrite <- Z.pow_add_r by lia. f_equal. lia. Qed.

Lemma pow2_xI p : 2 ^ Zpos p~1 = 2 * (2 ^ Zpos p * 2 ^ Zpos p).
Proof. rewrite <- pow2_xO, <- Z.pow_succ_r by lia. f_equal. Qed.

Lemma iter_shr_exact p :
  forall m, 0 <= m ->
    iter_pos shr_1 p (Build_shr_record (m * 2 ^ Zpos p) false false)
    = Build_shr_record m false false.
Proof.
  assert (Hpow : forall q, 0 <= 2 ^ Zpos q) by (intros; apply Z.pow_nonneg; lia).
  induction p as [p IH|p IH|]; intros m Hm; cbn [iter_pos].
  - replace (m * 2 ^ Zpos p~1) with (2 * ((m * 2 ^ Zpos p) * 2 ^ Zpos p))
      by (rewrite pow2_xI; ring).
    rewrite shr_1_double by (pose proof (Hpow p); nia).
    rewrite IH by (pose proof (Hpow p); nia).
    now apply IH.
  - replace (m * 2 ^ Zpos p~0) with ((m * 2 ^ Zpos p) * 2 ^ Zpos p)
      by (rewrite pow2_xO; ring).
    rewrite IH by (pose proof (Hpow p); nia).
    now apply IH.
  - rewrite Z.pow_1_r. rewrite Z.mul_comm. now apply shr_1_double.
Qed.

Lemma emin_value : SpecFloat.emin prec emax = -1074.
Proof. reflexivity. Qed.

Lemma pow2_pos t : 0 <= t -> 0 < 2 ^ t.
Proof. intros; apply Z.pow_pos_nonneg; lia. Qed.

(** Shifting a mantissa [c * 2^t] of at least 53 digits down to 53 digits
    loses nothing when [c] itself has at most 53 digits. *)
Lemma shr_fexp_exact c t e :
  let dc := Zpos (digits2_pos c) in
  dc <= 53 -> 0 <= t -> 53 <= dc + t -> -1074 <= e + dc + t - 53 ->
  shr_fexp prec emax (Zpos c * 2 ^ t) e loc_Exact
  = (Build_shr_record (Zpos c * 2 ^ (53 - dc)) false false, e + dc + t - 53).
Proof.
  intros dc Hdc Ht Hd He.
  unfold shr_fexp. rewrite digits_shift by assumption. fold dc.
  unfold fexp. rewrite emin_value. change prec with 53.
  rewrite Z.max_l by lia.
  replace (dc + t + e - 53 - e) with (dc + t - 53) by lia.
  cbn [shr_record_of_loc]. unfold shr.
  destruct (dc + t - 53) as [|k|k] eqn:Ek; try lia.
  - replace (53 - dc) with t by lia. f_equal. lia.
  - replace (Zpos c * 2 ^ t) with ((Zpos c * 2 ^ (53 - dc)) * 2 ^ Zpos k).
    + rewrite iter_shr_exact by (pose proof (pow2_pos (53 - dc)); nia).
      f_equal. lia.
    + rewrite <- Z.mul_assoc, <- Z.pow_add_r by lia. do 2 f_equal. lia.
Qed.

Lemma round_exact s c t e :
  let dc := Zpos (digits2_pos c) in
  dc <= 53 -> 0 <= t -> 53 <= dc + t ->
  -1074 <= e + dc + t - 53 -> e + dc + t - 53 <= 971 ->
  binary_round_aux prec emax s (Zpos c * 2 ^ t) e loc_Exact
  = S754_finite s (Z.to_pos (Zpos c * 2 ^ (53 - dc))) (e + dc + t - 53).
Proof.
  intros dc Hdc Ht Hd He1 He2.
  unfold binary_round_aux.
  rewrite shr_fexp_exact by assumption. fold dc.
  cbn [shr_m loc_of_shr_record round_nearest_even].
  pose proof (shr_fexp_exact c (53 - dc) (e + dc + t - 53)) as H.
  cbv zeta in H. fold dc in H.
  rewrite H by lia.
  cbn [shr_m].
  pose proof (pow2_pos (53 - dc)) as Hp.
  destruct (Zpos c * 2 ^ (53 - dc)) as [|q|q] eqn:Eq; try nia.
  replace (e + dc + t - 53 + dc + (53 - dc) - 53) with (e + dc + t - 53) by lia.
  change (emax - prec) with 971.
  destruct (Z.leb_spec (e + dc + t - 53) 971); [reflexivity | lia].
Qed.

Lemma digits_le_53 p : Zpos p < 2 ^ 53 -> Zpos (digits2_pos p) <= 53.
Proof.
  intros H. pose proof (digits_bounds p) as [H1 _].
  destruct (Z_le_gt_dec (Zpos (digits2_pos p)) 53) as [L|G]; [exact L|].
  exfalso.
  assert (2 ^ 53 <= 2 ^ (Zpos (digits2_pos p) - 1)) by (apply Z.pow_le_mono_r; lia).
  lia.
Qed.

Lemma pos_iter_xO m d : Zpos (Pos.iter xO m d) = Zpos m * 2 ^ Zpos d.
Proof.
  rewrite <- Pos2Z.inj_pow, <- Pos2Z.inj_mul. f_equal.
  revert m. induction d using Pos.peano_ind; intros m.
  - cbn [Pos.iter]. rewrite Pos.pow_1_r. lia.
  - rewrite Pos.iter_succ, IHd, Pos.pow_succ_r. lia.
Qed.

Lemma binary_normalize_int n :
  0 <= n < 2 ^ 53 -> binary_normalize prec emax n 0 false = SFint n.
Proof.
  intros [H0 H]. destruct n as [|p|p]; try lia; [reflexivity|].
  pose proof (digits_le_53 p H) as Hd.
  pose proof (Pos2Z.is_pos (digits2_pos p)) as Hd0.
  cbn [binary_normalize SFint]. unfold binary_round, shl_align.
  unfold fexp. rewrite emin_value. change prec with 53.
  rewrite Z.max_l by lia. rewrite Z.add_0_r, Z.sub_0_r.
  destruct (Zpos (digits2_pos p) - 53) as [|k|k] eqn:Ek; try lia; cbv beta iota zeta.
  - pose proof (round_exact false p 0 0) as R. cbv zeta in R.
    rewrite Z.pow_0_r, Z.mul_1_r in R.
    etransitivity; [apply R; lia|]. f_equal; lia.
  - pose proof (round_exact false p (Zpos k) (Zneg k)) as R. cbv zeta in R.
    rewrite pos_iter_xO.
    etransitivity; [apply R; lia|]. f_equal; try lia.
Qed.

Lemma Prim2SF_Z2F n : 0 <= n < 2 ^ 53 -> Prim2SF (Z2F n) = SFint n.
Proof.
  intros H. unfold Z2F. rewrite of_uint63_spec, Uint63.of_Z_spec.
  rewrite Z.mod_small.
  - now apply binary_normalize_int.
  - split; [lia|]. apply Z.lt_trans with (2 ^ 53); [lia | reflexivity].
Qed.

Lemma digits_mul a b :
  Zpos (digits2_pos a) + Zpos (digits2_pos b) - 1 <= Zpos (digits2_pos (a * b))
  <= Zpos (digits2_pos a) + Zpos (digits2_pos b).
Proof.
  pose proof (digits_bounds a) as [A1 A2].
  pose proof (digits_bounds b) as [B1 B2].
  pose proof (digits_bounds (a * b)) as [C1 C2].
  pose proof (Pos2Z.is_pos (digits2_pos a)).
  pose proof (Pos2Z.is_pos (digits2_pos b)).
  pose proof (Pos2Z.is_pos (digits2_pos (a * b))).
  rewrite Pos2Z.inj_mul in C1, C2.
  set (da := Zpos (digits2_pos a)) in *.
  set (db := Zpos (digits2_pos b)) in *.
  set (dc := Zpos (digits2_pos (a * b))) in *.
  assert (L : 2 ^ (da - 1) * 2 ^ (db - 1) <= Zpos a * Zpos b).
  { apply Z.mul_le_mono_nonneg; try lia; apply Z.pow_nonneg; lia. }
  assert (U : Zpos a * Zpos b < 2 ^ da * 2 ^ db).
  { apply Z.mul_lt_mono_nonneg; lia. }
  rewrite <- Z.pow_add_r in L, U by lia.
  split.
  - assert (da - 1 + (db - 1) < dc); [|lia].
    apply (Z.pow_lt_mono_r_iff 2); lia.
  - assert (dc - 1 < da + db); [|lia].
    apply (Z.pow_lt_mono_r_iff 2); lia.
Qed.

Lemma SFint_mantissa p :
  Zpos p < 2 ^ 53 ->
  Zpos (Z.to_pos (Zpos p * 2 ^ (53 - Zpos (digits2_pos p))))
  = Zpos p * 2 ^ (53 - Zpos (digits2_pos p)).
Proof.
  intros H. pose proof (digits_le_53 p H).
  pose proof (pow2_pos (53 - Zpos (digits2_pos p))).
  apply Z2Pos.id. nia.
Qed.

(** Products of integers are exact as long as they stay below [2^53]. *)
Lemma SFmul_int a b :
  0 <= a -> 0 <= b -> a * b < 2 ^ 53 ->
  SF64mul (SFint a) (SFint b) = SFint (a * b).
Proof.
  intros Ha Hb Hab.
  destruct a as [|a|a]; try lia; [destruct b; try lia; reflexivity|].
  destruct b as [|b|b]; try lia; [reflexivity|].
  assert (Ha' : Zpos a < 2 ^ 53) by nia.
  assert (Hb' : Zpos b < 2 ^ 53) by nia.
  pose proof (digits_le_53 a Ha') as Da.
  pose proof (digits_le_53 b Hb') as Db.
  pose proof (digits_le_53 (a * b) Hab) as Dab.
  pose proof (digits_mul a b) as [M1 M2].
  change (Zpos a * Zpos b) with (Zpos (a * b)).
  unfold SF64mul. cbn [SFint SFmul xorb].
  rewrite Pos2Z.inj_mul, !SFint_mantissa by assumption.
  set (da := Zpos (digits2_pos a)) in *.
  set (db := Zpos (digits2_pos b)) in *.
  replace (Zpos a * 2 ^ (53 - da) * (Zpos b * 2 ^ (53 - db)))
    with (Zpos (a * b) * 2 ^ (106 - da - db)).
  - etransitivity; [apply round_exact; lia|].
    f_equal; lia.
  - replace (106 - da - db) with ((53 - da) + (53 - db)) by lia.
    rewrite Z.pow_add_r by lia. rewrite Pos2Z.inj_mul. ring.
Qed.

Lemma new_location_0 m : new_location m 0 = loc_Exact.
Proof.
  unfold new_location, new_location_even, new_location_odd.
  destruct (Z.even m); reflexivity.
Qed.

(** Exact quotients of integers below [2^53] are exact. *)
Lemma SFdiv_int b c :
  0 < b -> 0 <= c -> b * c < 2 ^ 53 ->
  SF64div (SFint (b * c)) (SFint b) = SFint c.
Proof.
  intros Hb Hc Hbc.
  destruct b as [|b|b]; try lia.
  destruct c as [|c|c]; try lia; [reflexivity|].
  assert (Hb' : Zpos b < 2 ^ 53) by nia.
  assert (Hc' : Zpos c < 2 ^ 53) by nia.
  pose proof (digits_le_53 b Hb') as Db.
  pose proof (digits_le_53 c Hc') as Dc.
  pose proof (digits_le_53 (b * c) Hbc) as Dbc.
  pose proof (digits_mul b c) as [M1 M2].
  pose proof (Pos2Z.is_pos (digits2_pos b)).
  pose proof (Pos2Z.is_pos (digits2_pos c)).
  change (Zpos b * Zpos c) with (Zpos (b * c)).
  unfold SF64div. cbn [SFint SFdiv xorb].
  unfold SFdiv_core_binary.
  rewrite !SFint_mantissa by assumption.
  set (db := Zpos (digits2_pos b)) in *.
  set (dc := Zpos (digits2_pos c)) in *.
  set (dbc := Zpos (digits2_pos (b * c))) in *.
  rewrite !digits_shift by lia. fold db dbc.
  unfold fexp. rewrite emin_value.
  replace (dbc + (53 - dbc) + (dbc - 53) - (db + (53 - db) + (db - 53)))
    with (dbc - db) by lia.
  replace (dbc - 53 - (db - 53)) with (dbc - db) by lia.
  change prec with 53.
  rewrite Z.max_l by lia. rewrite Z.min_l by lia.
  replace (dbc - db - (dbc - db - 53)) with 53 by lia.
  cbv beta iota zeta.
  rewrite Z.shiftl_mul_pow2 by lia.
  assert (Q : Z.div_eucl (Zpos (b * c) * 2 ^ (53 - dbc) * 2 ^ 53) (Zpos b * 2 ^ (53 - db))
              = (Zpos c * 2 ^ (53 + db - dbc), 0)).
  { pose proof (pow2_pos (53 - db)) as P1.
    pose proof (pow2_pos (53 + db - dbc)) as P2.
    assert (E : Zpos (b * c) * 2 ^ (53 - dbc) * 2 ^ 53
                = (Zpos b * 2 ^ (53 - db)) * (Zpos c * 2 ^ (53 + db - dbc)) + 0).
    { rewrite Z.add_0_r, Pos2Z.inj_mul, <- (Z.mul_assoc _ (2 ^ (53 - dbc))).
      replace (2 ^ (53 - dbc) * 2 ^ 53) with (2 ^ (53 - db) * 2 ^ (53 + db - dbc)).
      - ring.
      - rewrite <- !Z.pow_add_r by lia. f_equal. lia. }
    pose proof (Z.div_eucl_eq (Zpos (b * c) * 2 ^ (53 - dbc) * 2 ^ 53) (Zpos b * 2 ^ (53 - db))) as DE.
    pose proof (Z.mod_pos_bound (Zpos (b * c) * 2 ^ (53 - dbc) * 2 ^ 53) (Zpos b * 2 ^ (53 - db))) as MB.
    unfold Z.modulo in MB.
    destruct (Z.div_eucl _ _) as [q r]. 
    assert (Hpos : 0 < Zpos b * 2 ^ (53 - db)) by nia.
    specialize (DE ltac:(lia)). specialize (MB Hpos).
    rewrite <- Z.mul_assoc in E.
    rewrite <- Z.mul_assoc in DE.
    assert (q = Zpos c * 2 ^ (53 + db - dbc) /\ r = 0); [|intuition congruence].
    rewrite Z.mul_assoc in E. rewrite Z.mul_assoc in DE.
    set (N := Zpos (b * c) * 2 ^ (53 - dbc) * 2 ^ 53) in *.
    set (D := Zpos b * 2 ^ (53 - db)) in *.
    set (Q := Zpos c * 2 ^ (53 + db - dbc)) in *.
    assert (D * (q - Q) + r = 0) by lia.
    assert (q = Q) by nia. lia. }
  rewrite Q. rewrite new_location_0.
  etransitivity; [apply round_exact; fold dc; lia|].
  fold dc. f_equal; lia.
Qed.

Lemma digits_mono a b :
  Zpos a <= Zpos b -> Zpos (digits2_pos a) <= Zpos (digits2_pos b).
Proof.
  intros H.
  pose proof (digits_bounds a) as [A1 _].
  pose proof (digits_bounds b) as [_ B2].
  assert (Zpos (digits2_pos a) - 1 < Zpos (digits2_pos b)); [|lia].
  apply (Z.pow_lt_mono_r_iff 2); lia.
Qed.

Lemma shl_align_fst m e e' :
  e' <= e -> Zpos (fst (shl_align m e e')) = Zpos m * 2 ^ (e - e').
Proof.
  intros H. unfold shl_align.
  destruct (e' - e) as [|d|d] eqn:E; try lia; cbn [fst].
  - replace (e - e') with 0 by lia. lia.
  - rewrite pos_iter_xO. do 2 f_equal. lia.
Qed.

(** Sums of integers are exact as long as they stay below [2^53]. *)
Lemma SFadd_int a b :
  0 <= a -> 0 <= b -> a + b < 2 ^ 53 ->
  SF64add (SFint a) (SFint b) = SFint (a + b).
Proof.
  intros Ha Hb Hab.
  destruct a as [|a|a]; try lia; [destruct b; try lia; reflexivity|].
  destruct b as [|b|b]; try lia; [reflexivity|].
  assert (Ha' : Zpos a < 2 ^ 53) by lia.
  assert (Hb' : Zpos b < 2 ^ 53) by lia.
  change (Zpos a + Zpos b) with (Zpos (a + b)) in *.
  pose proof (digits_le_53 a Ha') as Da.
  pose proof (digits_le_53 b Hb') as Db.
  pose proof (digits_le_53 (a + b) Hab) as Dab.
  pose proof (digits_mono a (a + b) ltac:(lia)) as Ma.
  pose proof (digits_mono b (a + b) ltac:(lia)) as Mb.
  pose proof (Pos2Z.is_pos (digits2_pos a)).
  pose proof (Pos2Z.is_pos (digits2_pos b)).
  unfold SF64add. cbn [SFint SFadd cond_Zopp].
  set (da := Zpos (digits2_pos a)) in *.
  set (db := Zpos (digits2_pos b)) in *.
  set (dc := Zpos (digits2_pos (a + b))) in *.
  set (ez := Z.min (da - 53) (db - 53)).
  assert (Hez : ez <= da - 53 /\ ez <= db - 53 /\ (ez = da - 53 \/ ez = db - 53))
    by (unfold ez; lia).
  rewrite !shl_align_fst by lia.
  change (Zpos a * 2 ^ (53 - Zpos (digits2_pos a))) with (Zpos a * 2 ^ (53 - da)).
  change (Zpos b * 2 ^ (53 - Zpos (digits2_pos b))) with (Zpos b * 2 ^ (53 - db)).
  fold da db.
  rewrite !SFint_mantissa by assumption. fold da db.
  replace (Zpos a * 2 ^ (53 - da) * 2 ^ (da - 53 - ez)
           + Zpos b * 2 ^ (53 - db) * 2 ^ (db - 53 - ez))
    with (Zpos (a + b) * 2 ^ (- ez)).
  2:{ rewrite <- !Z.mul_assoc, <- !Z.pow_add_r by lia.
      replace (53 - da + (da - 53 - ez)) with (- ez) by lia.
      replace (53 - db + (db - 53 - ez)) with (- ez) by lia.
      rewrite Pos2Z.inj_add. ring. }
  pose proof (pow2_pos (- ez) ltac:(lia)) as P.
  pose proof (digits_shift (a + b) (- ez) ltac:(lia)) as DS. fold dc in DS.
  destruct (Zpos (a + b) * 2 ^ (- ez)) as [|s|s] eqn:ES; try nia.
  cbn [binary_normalize]. unfold binary_round, shl_align.
  cbn [Zdigits2] in DS. rewrite DS.
  unfold fexp. rewrite emin_value. change prec with 53.
  rewrite Z.max_l by lia.
  destruct (dc + - ez + ez - 53 - ez) as [|k|k] eqn:Ek; try lia; cbv beta iota zeta.
  - rewrite <- ES. etransitivity; [apply round_exact; fold dc; lia|].
    fold dc. f_equal; lia.
  - rewrite <- ES. etransitivity; [apply round_exact; fold dc; lia|].
    fold dc. f_equal; lia.
Qed.

Local Close Scope Z_scope.
Local Open Scope float_scope.

Lemma nnfin_nn x : nnfin x -> nn x.
Proof. destruct 1; constructor. Qed.

Lemma signed_nn x : signed false x -> nn x.
Proof. destruct 1; constructor. Qed.

Lemma nonneg_nn x : nonneg x = true <-> nn (Prim2SF x).
Proof.
  unfold nonneg. rewrite leb_spec, Prim2SF_0.
  destruct (Prim2SF x) as [s|[]| |[] m e]; cbn; split; intros H;
    try discriminate; try constructor; try reflexivity; inversion H.
Qed.

Lemma finite_nonneg_nnfin x : finite_nonneg x = true <-> nnfin (Prim2SF x).
Proof.
  unfold finite_nonneg. rewrite leb_spec, ltb_spec, Prim2SF_0.
  change (Prim2SF infinity) with (S754_infinity false).
  destruct (Prim2SF x) as [s|[]| |[] m e]; cbn; split; intros H;
    try discriminate; try constructor; try reflexivity; inversion H.
Qed.

Lemma SFmul_nnfin x y : nnfin x -> nnfin y -> nn (SF64mul x y).
Proof.
  intros [sx|mx ex] [sy|my ey]; cbn; try constructor.
  apply signed_nn, binary_round_aux_signed. lia.
Qed.

(** Scaling by a positive finite constant. *)
Lemma SFmul_nn_pos x m e : nn x -> nn (SF64mul x (S754_finite false m e)).
Proof.
  intros [sx| |mx ex]; cbn; try constructor.
  apply signed_nn, binary_round_aux_signed. lia.
Qed.

Lemma SFdiv_core_nonneg m1 e1 m2 e2 :
  (0 <= fst (fst (SFdiv_core_binary prec emax (Zpos m1) e1 (Zpos m2) e2)))%Z.
Proof.
  unfold SFdiv_core_binary.
  set (s := (e1 - e2 - _)%Z).
  set (m' := match s with Zpos _ => Z.shiftl (Zpos m1) s | Z0 => Zpos m1 | Zneg _ => 0%Z end).
  assert (Hm : (0 <= m')%Z).
  { unfold m'. destruct s; try lia. apply Z.shiftl_nonneg. lia. }
  pose proof (Z.div_pos m' (Zpos m2) Hm ltac:(lia)) as Hq.
  unfold Z.div in Hq. destruct (Z.div_eucl m' (Zpos m2)) as [q r]. exact Hq.
Qed.

Lemma SFdiv_nn_pos x m e : nn x -> nn (SF64div x (S754_finite false m e)).
Proof.
  intros [sx| |mx ex]; cbn -[SFdiv_core_binary]; try constructor.
  - pose proof (SFdiv_core_nonneg mx ex m e) as H.
    destruct (SFdiv_core_binary prec emax (Zpos mx) ex (Zpos m) e) as [[q e'] l].
    apply signed_nn, binary_round_aux_signed. exact H.
Qed.

Lemma SFadd_nn x y : nn x -> nn y -> nn (SF64add x y).
Proof.
  intros [sx| |mx ex] [sy| |my ey]; cbn -[binary_normalize shl_align]; try constructor.
  - destruct sx, sy; constructor.
  - set (a := fst (shl_align mx ex _)). set (b := fst (shl_align my ey _)).
    change (Zpos a + Zpos b)%Z with (Zpos (a + b)).
    cbn [binary_normalize]. unfold binary_round.
    destruct (shl_align (a + b) _ _) as [mz ez].
    apply signed_nn, binary_round_aux_signed. lia.
Qed.

(** [x + 0] is [x], except on the negative zero. *)
Lemma add_0_r x : Prim2SF x <> S754_zero true -> x + 0 = x.
Proof.
  intros H. apply Prim2SF_inj. rewrite add_spec, Prim2SF_0.
  destruct (Prim2SF x) as [[]|[]| |s m e]; cbn; congruence.
Qed.

Lemma eqb_refl_nn x : nn (Prim2SF x) -> (x =? x) = true.
Proof.
  intros H. rewrite eqb_spec. unfold SFeqb.
  rewrite SFcompare_refl; [reflexivity|]. intros E. rewrite E in H. inversion H.
Qed.

(** Scaling by a positive finite constant turns no number into NaN. *)
Lemma SFmul_pos_nan x m e :
  SF64mul x (S754_finite false m e) = S754_nan <-> x = S754_nan.
Proof.
  destruct x as [s|s| |s mx ex]; cbn; split; try congruence.
  intros H.
  pose proof (binary_round_aux_signed (xorb s false) (Zpos (mx * m)) (ex + e) loc_Exact ltac:(lia)) as S.
  rewrite H in S. inversion S.
Qed.

End FloatFacts.

Import FloatFacts.

(** * Integers as numbers *)

Module IntegerFacts.

Lemma Z2F_mul a b :
  (0 <= a < 2 ^ 53)%Z -> (0 <= b < 2 ^ 53)%Z -> (a * b < 2 ^ 53)%Z ->
  Z2F a * Z2F b = Z2F (a * b).
Proof.
  intros Ha Hb Hab. apply Prim2SF_inj.
  rewrite mul_spec, !Prim2SF_Z2F by nia.
  apply SFmul_int; lia.
Qed.

Lemma Z2F_div b c :
  (0 < b < 2 ^ 53)%Z -> (0 <= c)%Z -> (b * c < 2 ^ 53)%Z ->
  Z2F (b * c) / Z2F b = Z2F c.
Proof.
  intros Hb Hc Hbc. apply Prim2SF_inj.
  rewrite div_spec, !Prim2SF_Z2F by nia.
  apply SFdiv_int; lia.
Qed.

Lemma Z2F_add a b :
  (0 <= a)%Z -> (0 <= b)%Z -> (a + b < 2 ^ 53)%Z ->
  Z2F a + Z2F b = Z2F (a + b).
Proof.
  intros Ha Hb Hab. apply Prim2SF_inj.
  rewrite add_spec, !Prim2SF_Z2F by lia.
  apply SFadd_int; lia.
Qed.

(** A quotient by 10000 that leaves no remainder is computed exactly, and
    is then the truncated quotient. *)
Lemma exact_quotient n :
  (0 <= n < 2 ^ 53)%Z -> (n mod 10000 = 0)%Z ->
  Z2F n / 10000 = Z2F (n ÷ 10000).
Proof.
  intros Hn Hmod.
  rewrite Z.quot_div_nonneg by lia.
  pose proof (Z.div_mod n 10000 ltac:(lia)) as E. rewrite Hmod, Z.add_0_r in E.
  pose proof (Z.div_pos n 10000 ltac:(lia) ltac:(lia)) as Q.
  rewrite E at 1.
  change 10000 with (Z2F 10000).
  apply Z2F_div; lia.
Qed.

Lemma positive_constant (c : number) m e :
  Prim2SF c = S754_finite false m e ->
  forall x, nn (Prim2SF x) -> nn (Prim2SF (x * c)) /\ nn (Prim2SF (x / c)).
Proof.
  intros Hc x Hx. rewrite mul_spec, div_spec, Hc. split.
  - now apply SFmul_nn_pos.
  - now apply SFdiv_nn_pos.
Qed.

Lemma Prim2SF_10000 : Prim2SF 10000 = S754_finite false 5497558138880000 (-39).
Proof. reflexivity. Qed.

Lemma Prim2SF_FEE : Prim2SF TENSOR_FEE_BPS = S754_finite false 5277655813324800 (-45).
Proof. reflexivity. Qed.

Lemma Prim2SF_LAMPORTS :
  Prim2SF LAMPORTS_PER_SOL = S754_finite false 8388608000000000 (-23).
Proof. reflexivity. Qed.

(** The marketplace fee of a non-negative price is a non-negative number. *)
Lemma fee_nn price :
  nn (Prim2SF price) -> nn (Prim2SF (price * TENSOR_FEE_BPS / 10000)).
Proof.
  intros H.
  apply (positive_constant _ _ _ Prim2SF_10000).
  now apply (positive_constant _ _ _ Prim2SF_FEE).
Qed.

Lemma royalty_nn price bps :
  nnfin (Prim2SF price) -> nnfin (Prim2SF bps) ->
  nn (Prim2SF (price * bps / 10000)).
Proof.
  intros Hp Hb.
  apply (positive_constant _ _ _ Prim2SF_10000).
  rewrite mul_spec. now apply SFmul_nnfin.
Qed.

Lemma add_nn x y : nn (Prim2SF x) -> nn (Prim2SF y) -> nn (Prim2SF (x + y)).
Proof. intros. rewrite add_spec. now apply SFadd_nn. Qed.

Lemma neg_zero_only x : Prim2SF x = S754_zero true -> x = neg_zero.
Proof. intros H. apply Prim2SF_inj. rewrite H. reflexivity. Qed.

(** Scaling to lamports turns no number into NaN. *)
Lemma isNaN_lamports x : isNaN (x * LAMPORTS_PER_SOL) = isNaN x.
Proof.
  unfold isNaN. apply eq_true_iff_eq.
  rewrite !is_nan_Prim2SF, mul_spec, Prim2SF_LAMPORTS.
  apply SFmul_pos_nan.
Qed.

(** Adding the royalty 0 changes nothing the comparison [==] sees. *)
Lemma total_without_royalty price :
  nonneg price = true ->
  looseEq (price + 0 + price * 150 / 10000) (price + price * 150 / 10000)
  = true.
Proof.
  intros Hp. apply nonneg_nn in Hp. unfold looseEq.
  assert (D : Prim2SF price = S754_zero true \/ Prim2SF price <> S754_zero true)
    by (destruct (Prim2SF price) as [[]| | |];
        (left; reflexivity) || (right; discriminate)).
  destruct D as [Z|NZ].
  - apply neg_zero_only in Z. subst price. reflexivity.
  - rewrite add_0_r by assumption.
    apply eqb_refl_nn, add_nn; [assumption | now apply fee_nn].
Qed.

Lemma SFint_is_integer k : (0 <= k < 2 ^ 53)%Z -> SFis_integer (SFint k) = true.
Proof.
  intros [H0 H]. destruct k as [|p|p]; try lia; [reflexivity|].
  pose proof (digits_le_53 p H) as Hd.
  cbn [SFint SFis_integer]. rewrite SFint_mantissa by assumption.
  apply orb_true_iff. right. apply Z.eqb_eq.
  replace (- (Zpos (digits2_pos p) - 53))%Z with (53 - Zpos (digits2_pos p))%Z by lia.
  rewrite Z.land_ones by lia.
  apply Z.mod_mul. apply Z.pow_nonzero; lia.
Qed.

Lemma isInteger_Z2F k : (0 <= k < 2 ^ 53)%Z -> isInteger (Z2F k) = true.
Proof.
  intros H. unfold isInteger. rewrite Prim2SF_Z2F by assumption.
  now apply SFint_is_integer.
Qed.

(** When 10000 divides both products, the pricing is integer arithmetic. *)
Lemma pricing_on_exact_quotients (n r : Z) (ts : arg string) :
  (0 <= n)%Z -> (0 <= r < 2 ^ 53)%Z ->
  (n * 150 mod 10000 = 0)%Z -> (n * r mod 10000 = 0)%Z ->
  (n + n * r ÷ 10000 + n * 150 ÷ 10000 < 2 ^ 53)%Z ->
  (n * 150 < 2 ^ 53)%Z -> (n * r < 2 ^ 53)%Z ->
  pricing (Z2F n) (Z2F r) ts
  = {| basePrice := Z2F n;
       marketplaceFee := Z2F (n * 150 ÷ 10000);
       royaltyFee := if truthy ts then Z2F (n * r ÷ 10000) else 0;
       total :=
         Z2F (n + (if truthy ts then n * r ÷ 10000 else 0)
              + n * 150 ÷ 10000) |}.
Proof.
  intros Hn Hr M150 Mr Hsum H150 Hnr.
  assert (Hq150 : (0 <= n * 150 ÷ 10000)%Z) by (apply Z.quot_pos; lia).
  assert (Hqr : (0 <= n * r ÷ 10000)%Z) by (apply Z.quot_pos; nia).
  assert (Efee : Z2F n * TENSOR_FEE_BPS / 10000 = Z2F (n * 150 ÷ 10000)).
  { unfold TENSOR_FEE_BPS. change 150 with (Z2F 150).
    rewrite Z2F_mul by lia. apply exact_quotient; nia. }
  assert (Eroy : Z2F n * Z2F r / 10000 = Z2F (n * r ÷ 10000)).
  { rewrite Z2F_mul by lia. apply exact_quotient; nia. }
  unfold pricing. rewrite Efee, Eroy.
  destruct (truthy ts).
  - rewrite !Z2F_add by lia. reflexivity.
  - change 0 with (Z2F 0). rewrite !Z2F_add by lia. reflexivity.
Qed.

End IntegerFacts.

Import IntegerFacts.

Local Open Scope string_scope.

(** * The pricing function *)

Lemma pricing_total price bps ts :
  total (pricing price bps ts) = getTotalPrice price bps ts.
Proof. reflexivity. Qed.

(** C1, as amended.  For a non-negative integer price and royalty rate
    whose products stay below 2^53, each fee term is the floating-point
    quotient by 10000; nothing truncates it.  Whenever 10000 divides the
    product the quotient is exact and is the truncated integer quotient. *)
Theorem fee_terms_exact_when_divisible (n r : Z) (ts : arg string) :
  (0 <= n)%Z -> (0 <= r < 2 ^ 53)%Z ->
  (n * 150 < 2 ^ 53)%Z -> (n * r < 2 ^ 53)%Z ->
  let p := pricing (Z2F n) (Z2F r) ts in
  marketplaceFee p = Z2F n * 150 / 10000
  /\ royaltyFee p = (if truthy ts then Z2F n * Z2F r / 10000 else 0)
  /\ ((n * 150 mod 10000 = 0)%Z ->
      marketplaceFee p = Z2F (n * 150 ÷ 10000))
  /\ (truthy ts = true -> (n * r mod 10000 = 0)%Z ->
      royaltyFee p = Z2F (n * r ÷ 10000)).
Proof.
  intros Hn Hr H150 Hnr p. subst p. cbn [pricing marketplaceFee royaltyFee].
  repeat split.
  - intros Hmod. unfold TENSOR_FEE_BPS.
    change 150 with (Z2F 150). rewrite Z2F_mul by lia.
    apply exact_quotient; nia.
  - intros Ht Hmod. rewrite Ht.
    assert (n < 2 ^ 53)%Z by lia.
    rewrite Z2F_mul by lia.
    apply exact_quotient; nia.
Qed.

(** C1, witness.  The price 1_000_000 with 500 bps: the fee is 15000 and
    the royalty 50000. *)
Lemma fee_terms_exact_when_divisible_witness :
  let p := pricing 1000000 500 (value "NonFungible") in
  marketplaceFee p = 15000 /\ royaltyFee p = 50000.
Proof.
  pose proof (fee_terms_exact_when_divisible 1000000 500
                (value "NonFungible")
                ltac:(lia) ltac:(lia) ltac:(lia) ltac:(lia)) as H.
  cbv zeta in H. destruct H as (_ & _ & Hfee & Hroy).
  split.
  - exact (Hfee eq_refl).
  - exact (Hroy eq_refl eq_refl).
Defined.

(** C1, counterexample.  On the price 1 the marketplace fee is the
    fraction 0.015, not the truncated quotient 0. *)
Lemma fee_not_truncated :
  marketplaceFee (pricing (Z2F 1) (Z2F 0) undefined)
  <> Z2F (1 * 150 ÷ 10000).
Proof.
  intros H. apply (f_equal Prim2SF) in H. vm_compute in H. discriminate H.
Qed.

(** C2, as amended.  For finite non-negative inputs the total is the sum
    of the price, the royalty and the marketplace fee, added in this order
    in binary64 arithmetic, and every component is a non-negative number.
    When the inputs are integers and 10000 divides both products, the
    components are integers and the total is their integer sum. *)
Theorem pricing_total_and_nonneg (price bps : number) (ts : arg string) :
  finite_nonneg price = true -> finite_nonneg bps = true ->
  let p := pricing price bps ts in
  total p = getTotalPrice price bps ts
  /\ total p = basePrice p + royaltyFee p + marketplaceFee p
  /\ nonneg (basePrice p) = true
  /\ nonneg (marketplaceFee p) = true
  /\ nonneg (royaltyFee p) = true
  /\ nonneg (total p) = true
  /\ forall n r : Z,
       price = Z2F n -> bps = Z2F r ->
       (0 <= n)%Z -> (0 <= r < 2 ^ 53)%Z ->
       (n * 150 mod 10000 = 0)%Z -> (n * r mod 10000 = 0)%Z ->
       (n + n * r ÷ 10000 + n * 150 ÷ 10000 < 2 ^ 53)%Z ->
       (n * 150 < 2 ^ 53)%Z -> (n * r < 2 ^ 53)%Z ->
       isInteger (basePrice p) = true
       /\ isInteger (marketplaceFee p) = true
       /\ isInteger (royaltyFee p) = true
       /\ total p
          = Z2F (n + (if truthy ts then n * r ÷ 10000 else 0)
                 + n * 150 ÷ 10000).
Proof.
  intros Hp Hb p.
  apply finite_nonneg_nnfin in Hp. apply finite_nonneg_nnfin in Hb.
  assert (Nbase : nn (Prim2SF (basePrice p))) by (apply nnfin_nn, Hp).
  assert (Nfee : nn (Prim2SF (marketplaceFee p)))
    by (apply fee_nn, nnfin_nn, Hp).
  assert (Nroy : nn (Prim2SF (royaltyFee p))).
  { subst p. cbn [pricing royaltyFee]. destruct (truthy ts).
    - now apply royalty_nn.
    - rewrite Prim2SF_0. constructor. }
  repeat match goal with |- _ /\ _ => split end;
    try reflexivity; try (apply nonneg_nn; assumption).
  - apply nonneg_nn. subst p. cbn [pricing total].
    apply add_nn; [apply add_nn|]; assumption.
  - intros n r -> -> Hn Hr M150 Mr Hsum H150 Hnr. subst p.
    assert (Hq150 : (0 <= n * 150 ÷ 10000)%Z) by (apply Z.quot_pos; lia).
    assert (Hqr : (0 <= n * r ÷ 10000)%Z) by (apply Z.quot_pos; nia).
    rewrite pricing_on_exact_quotients by assumption.
    cbn [basePrice marketplaceFee royaltyFee total].
    repeat split; try (apply isInteger_Z2F; lia).
    destruct (truthy ts); [apply isInteger_Z2F; lia | reflexivity].
Qed.

(** C2, witness.  The price 1_000_000 with 500 bps of royalty: the
    components are non-negative integers and the total is 1_065_000. *)
Lemma pricing_total_and_nonneg_witness :
  let p := pricing 1000000 500 (value "NonFungible") in
  (nonneg (basePrice p) = true
   /\ nonneg (marketplaceFee p) = true
   /\ nonneg (royaltyFee p) = true)
  /\ (isInteger (basePrice p) = true
      /\ isInteger (marketplaceFee p) = true
      /\ isInteger (royaltyFee p) = true)
  /\ total p = 1065000.
Proof.
  pose proof (pricing_total_and_nonneg 1000000 500 (value "NonFungible")
                eq_refl eq_refl) as H.
  cbv zeta in H. destruct H as (_ & _ & N1 & N2 & N3 & _ & Hint).
  destruct (Hint 1000000%Z 500%Z) as (I1 & I2 & I3 & Htot);
    try reflexivity; try (cbn; lia).
  repeat split; assumption.
Defined.

(** C2, counterexample.  On price 1 with a royalty of 232 bps the fee and
    the royalty are fractions, and adding the fee before the royalty gives
    another number than the total. *)
Lemma pricing_components_not_integers :
  let p := pricing 1 232 (value "x") in
  isInteger (marketplaceFee p) = false
  /\ isInteger (royaltyFee p) = false
  /\ looseEq (total p) (basePrice p + marketplaceFee p + royaltyFee p) = false.
Proof. vm_compute. repeat split. Qed.

(** C4, as amended.  The royalty is gated by the token standard and
    nothing is truncated.  The total [getTotalPrice] returns is the price,
    plus [price * royaltyBps / 10000] when the token standard is truthy
    and plus 0 otherwise, plus [price * 150 / 10000], all in binary64
    arithmetic.  With a falsy token standard and a non-negative price the
    total equals [price + price * 150 / 10000] whatever the royalty rate.
    When the inputs are integers and 10000 divides both products, the
    total is the integer sum, with the royalty quotient under a truthy
    token standard and without it otherwise. *)
Theorem royalty_gated_in_total (price bps : number) (ts : arg string) :
  getTotalPrice price bps ts
  = price + (if truthy ts then price * bps / 10000 else 0)
    + price * 150 / 10000
  /\ royaltyFee (pricing price bps ts)
     = (if truthy ts then price * bps / 10000 else 0)
  /\ (truthy ts = false -> nonneg price = true ->
      looseEq (getTotalPrice price bps ts) (price + price * 150 / 10000)
      = true)
  /\ (forall n r : Z,
        price = Z2F n -> bps = Z2F r ->
        (0 <= n)%Z -> (0 <= r < 2 ^ 53)%Z ->
        (n * 150 mod 10000 = 0)%Z -> (n * r mod 10000 = 0)%Z ->
        (n + n * r ÷ 10000 + n * 150 ÷ 10000 < 2 ^ 53)%Z ->
        (n * 150 < 2 ^ 53)%Z -> (n * r < 2 ^ 53)%Z ->
        getTotalPrice price bps ts
        = Z2F (n + (if truthy ts then n * r ÷ 10000 else 0)
               + n * 150 ÷ 10000)).
Proof.
  split; [|split; [|split]].
  - unfold getTotalPrice, TENSOR_FEE_BPS. destruct (truthy ts); reflexivity.
  - reflexivity.
  - intros Ht Hp. unfold getTotalPrice. rewrite Ht.
    now apply total_without_royalty.
  - intros n r -> -> Hn Hr M150 Mr Hsum H150 Hnr.
    rewrite <- pricing_total.
    now rewrite pricing_on_exact_quotients.
Qed.

(** C4, witness.  The price 1_000_000 at 500 bps: 1_065_000 with a token
    standard, 1_015_000 without. *)
Lemma royalty_gated_in_total_witness :
  getTotalPrice 1000000 500 (value "NonFungible") = 1065000
  /\ getTotalPrice 1000000 500 null = 1015000
  /\ looseEq (getTotalPrice 1000000 500 null)
       (1000000 + 1000000 * 150 / 10000) = true.
Proof.
  pose proof (royalty_gated_in_total 1000000 500 (value "NonFungible"))
    as (_ & _ & _ & H1).
  pose proof (royalty_gated_in_total 1000000 500 null)
    as (_ & _ & H2 & H3).
  split; [|split].
  - exact (H1 1000000%Z 500%Z eq_refl eq_refl ltac:(lia) ltac:(lia)
             eq_refl eq_refl ltac:(cbn; lia) ltac:(lia) ltac:(lia)).
  - exact (H3 1000000%Z 500%Z eq_refl eq_refl ltac:(lia) ltac:(lia)
             eq_refl eq_refl ltac:(cbn; lia) ltac:(lia) ltac:(lia)).
  - exact (H2 eq_refl eq_refl).
Defined.

(** C4, counterexample.  On the price 1 without royalties the total is the
    fraction 1.015, not the truncated sum 1; with a truthy token standard
    and 232 bps the royalty of 0.0232 is added as well, where the
    truncated sum is still 1. *)
Lemma total_not_truncated :
  looseEq (getTotalPrice (Z2F 1) (Z2F 0) null)
    (Z2F (1 + 1 * 150 ÷ 10000)) = false
  /\ looseEq (getTotalPrice (Z2F 1) (Z2F 0) null) (203 / 200) = true
  /\ looseEq (getTotalPrice (Z2F 1) (Z2F 232) (value "x"))
       (Z2F (1 + 1 * 232 ÷ 10000 + 1 * 150 ÷ 10000)) = false.
Proof. vm_compute. repeat split. Qed.

(** * The offer amount *)

(** C7, as amended.  The offer amount is multiplied by 10^9 and refused
    exactly when it is NaN: the second [isNaN] test of the route never
    fires, and negative or infinite amounts are converted like any other.
    The offer 1.5 becomes 1_500_000_000 lamports. *)
Theorem computeBidAmount_rejects_only_NaN (offerAmount : number) :
  Route.computeBidAmount offerAmount
  = (if isNaN offerAmount then Err InvalidAmount
     else Ok (offerAmount * LAMPORTS_PER_SOL))
  /\ Route.computeBidAmount 1.5 = Ok 1500000000.
Proof.
  split; [|reflexivity].
  unfold Route.computeBidAmount. rewrite isNaN_lamports.
  destruct (isNaN offerAmount); reflexivity.
Qed.

(** C7, counterexample.  The offer -1 is not refused: it becomes the
    price -1_000_000_000. *)
Lemma computeBidAmount_accepts_negative :
  Route.computeBidAmount (-1) = Ok (-1000000000)
  /\ Route.computeBidAmount (-1) <> Err InvalidAmount.
Proof. split; [reflexivity | discriminate]. Qed.

(** * The SOL-transfer builders *)

Section Builders.

Variable PublicKey_new : string -> option PublicKey.

(** A builder whose two addresses decode, case by case. *)
Lemma createBid_run mint bidder amount payer recipient conn :
  PublicKey_new bidder = Some payer ->
  PublicKey_new mint = Some recipient ->
  Transfer.createBidNftTransaction PublicKey_new mint bidder amount conn
  = if u64_lamports amount then
      match conn with
      | bh :: rest =>
          (Ok (Spec.buildTransferTransaction payer recipient amount bh), rest)
      | [] => (Err UpstreamUnavailable, [])
      end
    else (Err InvalidAmount, conn).
Proof.
  intros Hp Hr.
  unfold Transfer.createBidNftTransaction, Transfer.SystemProgram_transfer,
    bind.
  rewrite Hp, Hr. cbn. destruct (u64_lamports amount); cbn; [|reflexivity].
  destruct conn; reflexivity.
Qed.

Lemma createBuy_run mint buyer price payer recipient conn :
  PublicKey_new buyer = Some payer ->
  PublicKey_new mint = Some recipient ->
  Transfer.createBuyNftTransaction PublicKey_new mint buyer price conn
  = if u64_lamports (price * LAMPORTS_PER_SOL) then
      match conn with
      | bh :: rest =>
          (Ok (Spec.buildTransferTransaction payer recipient
                 (price * LAMPORTS_PER_SOL) bh), rest)
      | [] => (Err UpstreamUnavailable, [])
      end
    else (Err InvalidAmount, conn).
Proof.
  intros Hp Hr.
  unfold Transfer.createBuyNftTransaction, Transfer.SystemProgram_transfer,
    bind.
  rewrite Hp, Hr. cbn.
  destruct (u64_lamports (price * LAMPORTS_PER_SOL)); cbn; [|reflexivity].
  destruct conn; reflexivity.
Qed.

(** A builder with an address that does not decode. *)
Lemma createBid_malformed mint bidder amount conn :
  PublicKey_new bidder = None \/ PublicKey_new mint = None ->
  Transfer.createBidNftTransaction PublicKey_new mint bidder amount conn
  = (Err InvalidAccount, conn).
Proof.
  intros H. unfold Transfer.createBidNftTransaction, bind.
  destruct (PublicKey_new bidder) as [payer|]; cbn; [|reflexivity].
  destruct H as [H|H]; [discriminate|]. rewrite H. reflexivity.
Qed.

Lemma createBuy_malformed mint buyer price conn :
  PublicKey_new buyer = None \/ PublicKey_new mint = None ->
  Transfer.createBuyNftTransaction PublicKey_new mint buyer price conn
  = (Err InvalidAccount, conn).
Proof.
  intros H. unfold Transfer.createBuyNftTransaction, bind.
  destruct (PublicKey_new buyer) as [payer|]; cbn; [|reflexivity].
  destruct H as [H|H]; [discriminate|]. rewrite H. reflexivity.
Qed.

(** Whether both addresses decode. *)
Lemma keys_decode (a b : string) :
  (exists payer recipient,
     PublicKey_new a = Some payer /\ PublicKey_new b = Some recipient)
  \/ (PublicKey_new a = None \/ PublicKey_new b = None).
Proof.
  destruct (PublicKey_new a) as [payer|]; [|right; left; reflexivity].
  destruct (PublicKey_new b) as [recipient|]; [|right; right; reflexivity].
  left. eauto.
Qed.

End Builders.

Lemma bs58_account0 : bs58_PublicKey account0 = Some payer0.
Proof. vm_compute. reflexivity. Qed.

Lemma bs58_mintAddress0 : bs58_PublicKey mintAddress0 = Some recipient0.
Proof. vm_compute. reflexivity. Qed.

Lemma bs58_placeholder : bs58_PublicKey "YourSolanaAccountHere" = None.
Proof. vm_compute. reflexivity. Qed.

(** The routes and the unit.  A listing price is in lamports: the item
    route divides it by [LAMPORTS_PER_SOL] to display it.  The offer route
    converts SOL to lamports before the bid builder, which passes the amount
    on.  The buy route passes the listing price as it is, and the buy builder
    multiplies it once more. *)
Lemma buy_route_scales_lamports :
  Route.uiPrice 1000000000 = 1
  /\ Route.offerLamports 1 = 1000000000
  /\ Transfer.createBidNftTransaction bs58_PublicKey mintAddress0 account0
       (Route.offerLamports 1) ["blockhash"]
     = (Ok (Spec.buildTransferTransaction payer0 recipient0 1000000000
              "blockhash"), [])
  /\ Transfer.createBuyNftTransaction bs58_PublicKey mintAddress0 account0
       1000000000 ["blockhash"]
     = (Ok (Spec.buildTransferTransaction payer0 recipient0
              1000000000000000000 "blockhash"), []).
Proof.
  rewrite (createBid_run _ _ _ _ _ _ _ bs58_account0 bs58_mintAddress0).
  rewrite (createBuy_run _ _ _ _ _ _ _ bs58_account0 bs58_mintAddress0).
  repeat split.
Qed.

(** C3.  The buy builder on the amount 1: the envelope holds one
    instruction, and it transfers 1_000_000_000, not 1. *)
Theorem createBuy_transfers_scaled_amount :
  Transfer.createBuyNftTransaction bs58_PublicKey mintAddress0 account0 1
    ["blockhash"]
  = (Ok {| payerKey := payer0;
           recentBlockhash := "blockhash";
           instructions :=
             [ {| fromPubkey := payer0; toPubkey := recipient0;
                  lamports := 1000000000 |} ] |}, []).
Proof.
  rewrite (createBuy_run _ _ _ _ _ _ _ bs58_account0 bs58_mintAddress0).
  reflexivity.
Qed.

(** C6, as amended.  [prepareTransaction] has no blockhash argument: it
    asks the connection itself, and the envelope references the answer it
    got; when the request fails, so does the builder. *)
Theorem prepareTransaction_fetches_blockhash
  (instrs : list TransactionInstruction) (payer : PublicKey)
  (bh : Blockhash) (rest : Connection) :
  Transfer.prepareTransaction instrs payer (bh :: rest)
  = (Ok {| payerKey := payer; recentBlockhash := bh;
           instructions := instrs |}, rest)
  /\ Transfer.prepareTransaction instrs payer []
     = (Err UpstreamUnavailable, []).
Proof. split; reflexivity. Qed.

(** C6, counterexample.  A caller that holds the blockhash "A" cannot hand
    it over: with a connection that answers "B", the envelope references
    "B", and the answer has been consumed. *)
Lemma prepareTransaction_ignores_supplied_blockhash :
  Transfer.prepareTransaction [] payer0 ["B"]
  = (Ok (Build_VersionedTransaction payer0 "B" []), [])
  /\ Transfer.prepareTransaction [] payer0 ["B"]
     <> (Ok (Build_VersionedTransaction payer0 "A" []), ["B"]).
Proof. split; [reflexivity | discriminate]. Qed.

(** C8.  When the amount is not a non-negative integer the bid builder
    fails and builds no envelope, and the connection has not been asked for
    a blockhash.  The error is [InvalidAmount], thrown by the transfer
    instruction, whenever both addresses decode; an address that does not
    decode is reported first, as [InvalidAccount]. *)
Theorem bad_amount_rejected
  (PublicKey_new : string -> option PublicKey)
  (mint bidder : string) (amount : number) (conn : Connection) :
  isInteger amount && nonneg amount = false ->
  let run :=
    Transfer.createBidNftTransaction PublicKey_new mint bidder amount conn in
  (forall transaction, fst run <> Ok transaction)
  /\ snd run = conn
  /\ fst run
     = match PublicKey_new bidder, PublicKey_new mint with
       | Some _, Some _ => Err InvalidAmount
       | _, _ => Err InvalidAccount
       end.
Proof.
  intros Hbad run. subst run.
  assert (Hu : u64_lamports amount = false).
  { unfold u64_lamports. unfold nonneg in Hbad. now rewrite Hbad. }
  destruct (keys_decode PublicKey_new bidder mint)
    as [(payer & recipient & Hp & Hr)|Hm].
  - rewrite (createBid_run _ _ _ _ _ _ _ Hp Hr), Hu, Hp, Hr. cbn.
    repeat split. discriminate.
  - rewrite (createBid_malformed _ _ _ _ _ Hm). cbn.
    repeat split; [discriminate|].
    destruct Hm as [Hm|Hm]; rewrite Hm; [reflexivity|].
    destruct (PublicKey_new bidder); reflexivity.
Qed.

(** C8, witness.  The amounts -1 and one half between the sample
    addresses: [InvalidAmount], and the blockhash is still to be had. *)
Lemma bad_amount_rejected_witness :
  Transfer.createBidNftTransaction bs58_PublicKey mintAddress0 account0 (-1)
    ["blockhash"]
  = (Err InvalidAmount, ["blockhash"])
  /\ Transfer.createBidNftTransaction bs58_PublicKey mintAddress0 account0
       (1 / 2) ["blockhash"]
     = (Err InvalidAmount, ["blockhash"]).
Proof.
  pose proof (bad_amount_rejected bs58_PublicKey mintAddress0 account0 (-1)
                ["blockhash"] eq_refl) as (_ & H1 & H2).
  pose proof (bad_amount_rejected bs58_PublicKey mintAddress0 account0 (1 / 2)
                ["blockhash"] eq_refl) as (_ & H3 & H4).
  rewrite bs58_account0, bs58_mintAddress0 in H2, H4.
  split.
  - rewrite (surjective_pairing (Transfer.createBidNftTransaction _ _ _ _ _)).
    now rewrite H1, H2.
  - rewrite (surjective_pairing (Transfer.createBidNftTransaction _ _ _ _ _)).
    now rewrite H3, H4.
Defined.

(** C9.  When the payer or the recipient is malformed, both builders fail
    with [InvalidAccount] and return no envelope; the connection has not
    been asked for a blockhash, so nothing was assembled. *)
Theorem malformed_account_rejected
  (PublicKey_new : string -> option PublicKey)
  (mint account : string) (amount : number) (conn : Connection) :
  PublicKey_new account = None \/ PublicKey_new mint = None ->
  Transfer.createBidNftTransaction PublicKey_new mint account amount conn
    = (Err InvalidAccount, conn)
  /\ Transfer.createBuyNftTransaction PublicKey_new mint account amount conn
    = (Err InvalidAccount, conn).
Proof.
  intros H. split.
  - now apply createBid_malformed.
  - now apply createBuy_malformed.
Qed.

(** C9, witness.  The placeholder account of the routes is no base58
    address. *)
Lemma malformed_account_rejected_witness :
  Transfer.createBidNftTransaction bs58_PublicKey mintAddress0
    "YourSolanaAccountHere" 1 ["blockhash"]
    = (Err InvalidAccount, ["blockhash"])
  /\ Transfer.createBuyNftTransaction bs58_PublicKey mintAddress0
    "YourSolanaAccountHere" 1 ["blockhash"]
    = (Err InvalidAccount, ["blockhash"]).
Proof.
  apply (malformed_account_rejected bs58_PublicKey mintAddress0
           "YourSolanaAccountHere" 1 ["blockhash"]).
  left. exact bs58_placeholder.
Defined.




(** * The Tensor buy flow *)

(** C5.  The buy flow calls [getTotalPrice] without a token standard: for
    every listing the royalty term is 0, and the price handed to the
    marketplace is the listed price plus the 150 bps fee, whatever the
    listing's [sellRoyaltyFeeBPS]. *)
Theorem buy_flow_royalty_is_zero
  (getNftInfo : string -> option Tensor.ItemDetails)
  (getNftBuyTransaction : Tensor.BuyRequest -> option string)
  (parseInt : string -> number)
  (mint buyer : string) (details : Tensor.ItemDetails) (l : Tensor.Listing)
  (bh : Blockhash) (rest : Connection) :
  getNftInfo mint = Some details ->
  Tensor.listing details = Some l ->
  let p := parseInt (Tensor.price l) in
  Tensor.createBuyNftTransaction getNftInfo getNftBuyTransaction parseInt
    mint buyer (bh :: rest)
  = (Ok (getNftBuyTransaction
           {| Tensor.mintAddress := mint;
              Tensor.ownerAddress := Tensor.seller l;
              Tensor.buyerAddress := buyer;
              Tensor.buyPrice := p + 0 + p * 150 / 10000;
              Tensor.latestBlockhash := bh |}), rest)
  /\ royaltyFee (pricing p (Tensor.sellRoyaltyFeeBPS details) undefined) = 0
  /\ (nonneg p = true ->
      looseEq (p + 0 + p * 150 / 10000) (p + p * 150 / 10000) = true).
Proof.
  intros Hinfo Hl p. split; [|split].
  - unfold Tensor.createBuyNftTransaction, bind. cbn.
    rewrite Hinfo, Hl. reflexivity.
  - reflexivity.
  - apply total_without_royalty.
Qed.

(** C5, witness.  A listing of 1_000_000 lamports with 500 bps of royalty
    is bought for 1_015_000. *)
Lemma buy_flow_royalty_is_zero_witness :
  Tensor.createBuyNftTransaction (fun _ => Some itemDetails0)
    (fun r => if looseEq (Tensor.buyPrice r) 1015000 then Some "unsigned"
              else None)
    (fun _ => 1000000) mintAddress0 account0 ["blockhash"]
  = (Ok (Some "unsigned"), [])
  /\ looseEq (1000000 + 0 + 1000000 * 150 / 10000)
       (1000000 + 1000000 * 150 / 10000) = true.
Proof.
  pose proof (buy_flow_royalty_is_zero (fun _ => Some itemDetails0)
    (fun r => if looseEq (Tensor.buyPrice r) 1015000 then Some "unsigned"
              else None)
    (fun _ => 1000000) mintAddress0 account0 itemDetails0 listing0
    "blockhash" [] eq_refl eq_refl) as H.
  cbv zeta in H. destruct H as (Hrun & _ & Heq).
  split.
  - exact Hrun.
  - exact (Heq eq_refl).
Defined.

(** * More on numbers *)

Module NumberFacts.

Lemma isNaN_nan x : isNaN x = true -> x = nan.
Proof.
  intros H. apply is_nan_Prim2SF in H. apply Prim2SF_inj. rewrite H. reflexivity.
Qed.

Lemma nan_mul y : nan * y = nan.
Proof. apply Prim2SF_inj. rewrite mul_spec. reflexivity. Qed.

Lemma nan_add y : nan + y = nan.
Proof. apply Prim2SF_inj. rewrite add_spec. reflexivity. Qed.

Lemma add_nan x : x + nan = nan.
Proof.
  apply Prim2SF_inj. rewrite add_spec. change (Prim2SF nan) with S754_nan.
  destruct (Prim2SF x) as [[]|[]| |[] m e]; reflexivity.
Qed.

(** A price that is not a number gives a total that is not a number. *)
Lemma getTotalPrice_nan bps ts : getTotalPrice nan bps ts = nan.
Proof.
  unfold getTotalPrice. rewrite !nan_mul, nan_add.
  change (nan / 10000) with nan. apply nan_add.
Qed.

Lemma Z2F_not_NaN n : (0 <= n < 2 ^ 53)%Z -> isNaN (Z2F n) = false.
Proof.
  intros H. unfold isNaN. apply not_true_is_false. intros E.
  apply is_nan_Prim2SF in E. rewrite Prim2SF_Z2F in E by assumption.
  destruct n; discriminate E.
Qed.

(** The product with a number of either sign: negating a factor negates
    the product. *)
Lemma binary_round_aux_opp s m e l :
  (0 <= m)%Z ->
  binary_round_aux prec emax (negb s) m e l
  = SFopp (binary_round_aux prec emax s m e l).
Proof.
  intros Hm. unfold binary_round_aux.
  pose proof (shr_fexp_nonneg m e l Hm) as H1.
  destruct (shr_fexp prec emax m e l) as [mrs' e']. cbn [fst] in H1.
  pose proof (shr_fexp_nonneg _ e' loc_Exact
                (round_nearest_even_nonneg _ (loc_of_shr_record mrs') H1)) as H2.
  destruct (shr_fexp prec emax _ e' loc_Exact) as [mrs'' e'']. cbn [fst] in H2.
  destruct (shr_m mrs'') as [|p|p]; try lia; try reflexivity.
  destruct (e'' <=? emax - prec)%Z; reflexivity.
Qed.

Lemma SFmul_opp x y : SF64mul (SFopp x) y = SFopp (SF64mul x y).
Proof.
  destruct x as [sx|sx| |sx mx ex], y as [sy|sy| |sy my ey]; cbn;
    try reflexivity; try (destruct sx, sy; reflexivity).
  replace (xorb (negb sx) sy) with (negb (xorb sx sy)) by (destruct sx, sy; reflexivity).
  apply binary_round_aux_opp. lia.
Qed.

Lemma opp_mul x y : (- x) * y = - (x * y).
Proof.
  apply Prim2SF_inj. rewrite mul_spec, !opp_spec, mul_spec. apply SFmul_opp.
Qed.

Lemma isNaN_opp x : isNaN (- x) = isNaN x.
Proof.
  unfold isNaN. apply eq_true_iff_eq. rewrite !is_nan_Prim2SF, opp_spec.
  destruct (Prim2SF x); cbn; split; congruence.
Qed.

End NumberFacts.

Import NumberFacts.

(** * The order of the numbers that are not below zero *)

Module OrderFacts.

Local Open Scope Z_scope.

Lemma shr_1_m mrs : 0 <= shr_m mrs -> shr_m (shr_1 mrs) = Z.div2 (shr_m mrs).
Proof.
  destruct mrs as [m r s]. destruct m as [|[p|p|]|p]; cbn; try reflexivity; lia.
Qed.

Lemma iter_shr_m p :
  forall mrs, 0 <= shr_m mrs ->
    shr_m (iter_pos shr_1 p mrs) = shr_m mrs / 2 ^ Zpos p.
Proof.
  induction p as [p IH|p IH|]; intros mrs H; cbn [iter_pos].
  - rewrite IH by (apply iter_shr_1_nonneg, shr_1_nonneg, H).
    rewrite IH by (apply shr_1_nonneg, H).
    rewrite shr_1_m, Z.div2_div, pow2_xI by exact H.
    pose proof (pow2_pos (Zpos p) ltac:(lia)).
    rewrite !Z.div_div by lia. reflexivity.
  - rewrite IH by (apply iter_shr_1_nonneg, H).
    rewrite IH by exact H. rewrite pow2_xO.
    pose proof (pow2_pos (Zpos p) ltac:(lia)).
    rewrite Z.div_div by lia. reflexivity.
  - rewrite shr_1_m, Z.div2_div by exact H. reflexivity.
Qed.

Lemma digits_pos_lower p : 2 ^ (Zpos (digits2_pos p) - 1) <= Zpos p.
Proof. apply digits_bounds. Qed.

(** What the shift to the format's exponent does to a positive mantissa
    whose exponent is not below the least one. *)
Lemma shr_fexp_shape m e l :
  0 < m -> -1074 <= e ->
  let r := shr_fexp prec emax m e l in
  snd r = Z.max e (fexp prec emax (Zdigits2 m + e))
  /\ shr_m (fst r) = m / 2 ^ (snd r - e)
  /\ 0 < shr_m (fst r).
Proof.
  intros Hm He r. subst r. unfold shr_fexp, shr.
  destruct m as [|p|p]; try lia. cbn [Zdigits2].
  unfold fexp. rewrite emin_value. change prec with 53.
  pose proof (digits_pos_lower p) as Hd.
  pose proof (Pos2Z.is_pos (digits2_pos p)) as Hd0.
  set (d := Zpos (digits2_pos p)) in *.
  destruct (Z.max (d + e - 53) (-1074) - e) as [|k|k] eqn:Ek; cbn [fst snd].
  - rewrite shr_record_of_loc_m. replace (e - e) with 0 by lia.
    rewrite Z.div_1_r. repeat split; lia.
  - rewrite iter_shr_m by (rewrite shr_record_of_loc_m; lia).
    rewrite shr_record_of_loc_m.
    replace (e + Zpos k - e) with (Zpos k) by lia.
    assert (Hk : Zpos k = d - 53) by lia.
    repeat split; try lia.
    apply Z.div_str_pos. split; [apply pow2_pos; lia|].
    apply Z.le_trans with (2 ^ (d - 1)); [|exact Hd].
    apply Z.pow_le_mono_r; lia.
  - rewrite shr_record_of_loc_m. replace (e - e) with 0 by lia.
    rewrite Z.div_1_r. repeat split; lia.
Qed.

Lemma round_nearest_even_ge m l : m <= round_nearest_even m l.
Proof. destruct l as [|[]]; cbn; try destruct (Z.even m); lia. Qed.

Lemma valid_finite s m e :
  valid_binary (S754_finite s m e) = true ->
  -1074 <= e /\ e = Z.max (Zpos (digits2_pos m) + e - 53) (-1074).
Proof.
  intros H. cbn [valid_binary] in H.
  unfold bounded, canonical_mantissa, fexp in H. rewrite emin_value in H.
  change prec with 53 in H. apply andb_true_iff in H as [H _].
  apply Z.eqb_eq in H. lia.
Qed.

Lemma fexp_mono a b :
  a <= b -> fexp prec emax a <= fexp prec emax b.
Proof. unfold fexp. rewrite emin_value. change prec with 53. lia. Qed.

(** Rounding a mantissa that is not below [mx * 2^(ex - ez)] gives a
    number that is not below [mx * 2^ex]. *)
Lemma binary_round_aux_ge mx ex s ez :
  -1074 <= ez <= ex ->
  Zpos mx * 2 ^ (ex - ez) <= Zpos s ->
  ex <= fexp prec emax (Zpos (digits2_pos s) + ez) ->
  SFleb (S754_finite false mx ex)
    (binary_round_aux prec emax false (Zpos s) ez loc_Exact) = true.
Proof.
  intros Hez Has Hf. unfold binary_round_aux.
  pose proof (shr_fexp_shape (Zpos s) ez loc_Exact ltac:(lia) ltac:(lia)) as S1.
  cbv zeta in S1. cbn [Zdigits2] in S1.
  destruct (shr_fexp prec emax (Zpos s) ez loc_Exact) as [mrs1 e1].
  cbn [fst snd] in S1. destruct S1 as (E1 & M1 & P1).
  pose proof (round_nearest_even_ge (shr_m mrs1) (loc_of_shr_record mrs1)) as R2.
  set (m2 := round_nearest_even (shr_m mrs1) (loc_of_shr_record mrs1)) in *.
  pose proof (shr_fexp_shape m2 e1 loc_Exact ltac:(lia) ltac:(lia)) as S3.
  cbv zeta in S3.
  destruct (shr_fexp prec emax m2 e1 loc_Exact) as [mrs3 e3].
  cbn [fst snd] in S3. destruct S3 as (E3 & M3 & P3).
  destruct (shr_m mrs3) as [|p3|p3] eqn:Em3; try lia.
  destruct (e3 <=? emax - prec); [|reflexivity].
  unfold SFleb. cbn [SFcompare].
  destruct (Z.compare_spec ex e3) as [Heq|Hlt|Hgt]; try reflexivity; try lia.
  assert (Hm : Zpos mx <= Zpos p3).
  { rewrite M3. replace (e3 - e1) with 0 by lia. rewrite Z.div_1_r.
    apply Z.le_trans with (shr_m mrs1); [|exact R2].
    rewrite M1. replace (e1 - ez) with (ex - ez) by lia.
    apply Z.div_le_lower_bound; [apply pow2_pos; lia | lia]. }
  change (Pos.compare_cont Eq mx p3) with (Pos.compare mx p3).
  destruct (Pos.compare_spec mx p3); try reflexivity; lia.
Qed.

(** Adding a positive number never gives less. *)
Lemma SFadd_ge_finite mx ex my ey :
  valid_binary (S754_finite false mx ex) = true ->
  valid_binary (S754_finite false my ey) = true ->
  SFleb (S754_finite false mx ex)
    (SF64add (S754_finite false mx ex) (S754_finite false my ey)) = true.
Proof.
  intros Vx Vy.
  apply valid_finite in Vx as [Ex Cx]. apply valid_finite in Vy as [Ey Cy].
  unfold SF64add. cbn [SFadd cond_Zopp].
  set (ez := Z.min ex ey).
  assert (Hez : ez <= ex /\ ez <= ey /\ -1074 <= ez) by (unfold ez; lia).
  rewrite !shl_align_fst by lia.
  pose proof (pow2_pos (ex - ez) ltac:(lia)) as Px.
  pose proof (pow2_pos (ey - ez) ltac:(lia)) as Py.
  pose proof (digits_shift mx (ex - ez) ltac:(lia)) as Dx.
  destruct (Zpos mx * 2 ^ (ex - ez)) as [|pa|pa] eqn:Ea; try nia.
  cbn [Zdigits2] in Dx.
  destruct (Zpos pa + Zpos my * 2 ^ (ey - ez)) as [|s|s] eqn:ES; try nia.
  assert (Has : Zpos pa <= Zpos s) by nia.
  pose proof (digits_mono pa s Has) as Dm.
  assert (Hf : ex <= fexp prec emax (Zpos (digits2_pos s) + ez)).
  { apply Z.le_trans with (fexp prec emax (Zpos (digits2_pos mx) + ex)).
    - unfold fexp. rewrite emin_value. change prec with 53. lia.
    - apply fexp_mono. lia. }
  cbn [binary_normalize]. unfold binary_round, shl_align.
  destruct (fexp prec emax (Zpos (digits2_pos s) + ez) - ez) as [|k|k] eqn:Ek;
    try lia; cbv beta iota zeta;
    apply binary_round_aux_ge; rewrite ?Ea; lia.
Qed.

(** Among numbers that are not below zero, a sum is not below its first
    term. *)
Lemma SFadd_ge x y :
  nn x -> nn y -> valid_binary x = true -> valid_binary y = true ->
  SFleb x (SF64add x y) = true.
Proof.
  intros [sx| |mx ex] [sy| |my ey] Vx Vy;
    try (now apply SFadd_ge_finite);
    try (destruct sx; reflexivity); try (destruct sx, sy; reflexivity);
    try reflexivity.
  unfold SF64add, SFleb. cbn [SFadd].
  now rewrite SFcompare_refl.
Qed.

(** The order of the numbers that are not below zero is transitive. *)
Lemma SFleb_trans x y z :
  nn x -> nn y -> nn z ->
  SFleb x y = true -> SFleb y z = true -> SFleb x z = true.
Proof.
  intros [sx| |mx ex] [sy| |my ey] [sz| |mz ez]; unfold SFleb; cbn;
    try reflexivity; try discriminate; try (destruct sx; reflexivity).
  change (Pos.compare_cont Eq mx my) with (Pos.compare mx my).
  change (Pos.compare_cont Eq my mz) with (Pos.compare my mz).
  change (Pos.compare_cont Eq mx mz) with (Pos.compare mx mz).
  destruct (Z.compare_spec ex ey), (Z.compare_spec ey ez),
    (Z.compare_spec ex ez); try reflexivity; try discriminate; try lia.
  destruct (Pos.compare_spec mx my), (Pos.compare_spec my mz),
    (Pos.compare_spec mx mz); try reflexivity; try discriminate; lia.
Qed.

Local Close Scope Z_scope.
Local Open Scope float_scope.

Lemma add_ge x y :
  nn (Prim2SF x) -> nn (Prim2SF y) -> (x <=? x + y) = true.
Proof.
  intros Hx Hy. rewrite leb_spec, add_spec.
  apply SFadd_ge; auto using Prim2SF_valid.
Qed.

Lemma leb_trans x y z :
  nn (Prim2SF x) -> nn (Prim2SF y) -> nn (Prim2SF z) ->
  (x <=? y) = true -> (y <=? z) = true -> (x <=? z) = true.
Proof. rewrite !leb_spec. apply SFleb_trans. Qed.

End OrderFacts.

Import OrderFacts.

Import Http.

(** * More on the pricing function and on the unit conversion *)

(** X1.  The total is never below the price: for a finite non-negative
    price and royalty rate, [price <= getTotalPrice price bps ts]. *)
Theorem total_not_below_price (price bps : number) (ts : arg string) :
  finite_nonneg price = true -> finite_nonneg bps = true ->
  (price <=? getTotalPrice price bps ts)%float = true.
Proof.
  intros Hp Hb.
  apply finite_nonneg_nnfin in Hp. apply finite_nonneg_nnfin in Hb.
  pose proof (nnfin_nn _ Hp) as Np.
  assert (Nfee : nn (Prim2SF (price * TENSOR_FEE_BPS / 10000)))
    by (now apply fee_nn).
  assert (Nroy : nn (Prim2SF
            (if truthy ts then price * bps / 10000 else 0))).
  { destruct (truthy ts); [now apply royalty_nn | rewrite Prim2SF_0; constructor]. }
  unfold getTotalPrice.
  set (royalty := if truthy ts then price * bps / 10000 else 0) in *.
  apply leb_trans with (price + royalty); auto using add_nn, add_ge.
Qed.

(** X1, witness.  One lamport at 232 bps: the total 1.0382 is above 1. *)
Lemma total_not_below_price_witness :
  (1 <=? getTotalPrice 1 232 (value "NonFungible"))%float = true.
Proof. apply (total_not_below_price 1 232 (value "NonFungible")); reflexivity. Defined.

(** X2.  A price of zero costs nothing, whatever the finite non-negative
    royalty rate and the token standard. *)
Theorem free_listing_costs_nothing (bps : number) (ts : arg string) :
  finite_nonneg bps = true -> getTotalPrice 0 bps ts = 0.
Proof.
  intros Hb. unfold getTotalPrice.
  destruct (truthy ts); [|reflexivity].
  assert (E : 0 + 0 * bps / 10000 = 0).
  { apply finite_nonneg_nnfin in Hb. apply Prim2SF_inj.
    rewrite add_spec, div_spec, mul_spec, Prim2SF_10000, Prim2SF_0.
    destruct Hb as [[]|m e]; reflexivity. }
  rewrite E. reflexivity.
Qed.

(** X2, witness.  A royalty rate of 500 bps. *)
Lemma free_listing_costs_nothing_witness :
  getTotalPrice 0 500 (value "NonFungible") = 0.
Proof.
  apply (free_listing_costs_nothing 500 (value "NonFungible")). reflexivity.
Defined.

(** X3.  On a price that is a multiple of 10000 lamports, below 2^53 / 10000,
    with an integer royalty rate of at most 10000 bps, the total is the
    integer [price + price/10000 * bps + price/10000 * 150]. *)
Theorem total_exact_on_round_prices (k r : Z) (ts : arg string) :
  (0 <= k)%Z -> (0 <= r <= 10000)%Z -> (10000 * k * 10000 < 2 ^ 53)%Z ->
  getTotalPrice (Z2F (10000 * k)) (Z2F r) ts
  = Z2F (10000 * k + (if truthy ts then k * r else 0) + k * 150).
Proof.
  intros Hk Hr Hb.
  assert (Q1 : (10000 * k * 150 ÷ 10000 = k * 150)%Z).
  { replace (10000 * k * 150)%Z with (k * 150 * 10000)%Z by ring.
    apply Z.quot_mul. lia. }
  assert (Q2 : (10000 * k * r ÷ 10000 = k * r)%Z).
  { replace (10000 * k * r)%Z with (k * r * 10000)%Z by ring.
    apply Z.quot_mul. lia. }
  assert (M1 : (10000 * k * 150 mod 10000 = 0)%Z).
  { replace (10000 * k * 150)%Z with (k * 150 * 10000)%Z by ring.
    apply Z.mod_mul. lia. }
  assert (M2 : (10000 * k * r mod 10000 = 0)%Z).
  { replace (10000 * k * r)%Z with (k * r * 10000)%Z by ring.
    apply Z.mod_mul. lia. }
  rewrite <- pricing_total.
  rewrite pricing_on_exact_quotients; rewrite ?Q1, ?Q2; try assumption; try nia.
  cbn [total]. reflexivity.
Qed.

(** X3, witness.  0.1 SOL at 500 bps: 100_000_000 + 5_000_000 + 1_500_000. *)
Lemma total_exact_on_round_prices_witness :
  getTotalPrice 100000000 500 (value "NonFungible") = 106500000.
Proof.
  exact (total_exact_on_round_prices 10000 500 (value "NonFungible")
           ltac:(lia) ltac:(lia) ltac:(lia)).
Defined.

(** X4.  Whole amounts of SOL convert exactly: for an integer [n] with
    [n * 10^9] below 2^53, the offer [n] becomes the integer price
    [n * 10^9], and that price is displayed as [n] again. *)
Theorem whole_sol_round_trip (n : Z) :
  (0 <= n)%Z -> (n * 1000000000 < 2 ^ 53)%Z ->
  Route.computeBidAmount (Z2F n) = Ok (Z2F (n * 1000000000))
  /\ Route.offerLamports (Z2F n) = Z2F (n * 1000000000)
  /\ Route.uiPrice (Z2F (n * 1000000000)) = Z2F n.
Proof.
  intros Hn Hb.
  assert (E : Z2F n * LAMPORTS_PER_SOL = Z2F (n * 1000000000)).
  { change LAMPORTS_PER_SOL with (Z2F 1000000000). apply Z2F_mul; lia. }
  repeat split.
  - unfold Route.computeBidAmount. rewrite (Z2F_not_NaN n) by lia.
    cbv zeta. rewrite E, Z2F_not_NaN by lia. reflexivity.
  - exact E.
  - unfold Route.uiPrice. change LAMPORTS_PER_SOL with (Z2F 1000000000).
    rewrite Z.mul_comm. apply Z2F_div; lia.
Qed.

(** X4, witness.  Five SOL. *)
Lemma whole_sol_round_trip_witness :
  Route.computeBidAmount 5 = Ok 5000000000
  /\ Route.offerLamports 5 = 5000000000
  /\ Route.uiPrice 5000000000 = 5.
Proof. exact (whole_sol_round_trip 5 ltac:(lia) ltac:(lia)). Defined.

(** X5.  The conversion is odd: the offer [- x] is refused when [x] is,
    and otherwise becomes the negated price. *)
Theorem computeBidAmount_opp (x : number) :
  Route.computeBidAmount (- x)
  = match Route.computeBidAmount x with
    | Ok priceInLamports => Ok (- priceInLamports)
    | Err e => Err e
    end.
Proof.
  unfold Route.computeBidAmount.
  rewrite opp_mul, !isNaN_opp.
  destruct (isNaN x); [reflexivity|].
  cbv zeta. destruct (isNaN (x * LAMPORTS_PER_SOL)); reflexivity.
Qed.

(** * More on the builders *)

(** X6.  What a built envelope tells.  When a builder resolves, it has
    consumed exactly one answer of the connection, which is the envelope's
    blockhash; the fee payer is the decoded account and is the source of
    the single transfer, whose destination is the decoded mint address; the
    bid transfers the amount, the buy the price times [LAMPORTS_PER_SOL]. *)
Theorem built_envelope_shape
  (PublicKey_new : string -> option PublicKey)
  (mint account : string) (amount : number)
  (conn conn' : Connection) (tx : VersionedTransaction) :
  (Transfer.createBidNftTransaction PublicKey_new mint account amount conn
     = (Ok tx, conn') ->
   conn = recentBlockhash tx :: conn'
   /\ PublicKey_new account = Some (payerKey tx)
   /\ exists recipient,
        PublicKey_new mint = Some recipient
        /\ instructions tx
           = [ {| fromPubkey := payerKey tx; toPubkey := recipient;
                  lamports := amount |} ])
  /\ (Transfer.createBuyNftTransaction PublicKey_new mint account amount conn
        = (Ok tx, conn') ->
      conn = recentBlockhash tx :: conn'
      /\ PublicKey_new account = Some (payerKey tx)
      /\ exists recipient,
           PublicKey_new mint = Some recipient
           /\ instructions tx
              = [ {| fromPubkey := payerKey tx; toPubkey := recipient;
                     lamports := amount * LAMPORTS_PER_SOL |} ]).
Proof.
  split; intros H;
    destruct (keys_decode PublicKey_new account mint)
      as [(p & r & Hp & Hr)|Hm].
  - rewrite (createBid_run _ _ _ _ _ _ _ Hp Hr) in H.
    destruct (u64_lamports amount); [|discriminate].
    destruct conn as [|b t]; [discriminate|].
    injection H as <- <-. cbn. repeat split; eauto.
  - rewrite (createBid_malformed _ _ _ _ _ Hm) in H. discriminate.
  - rewrite (createBuy_run _ _ _ _ _ _ _ Hp Hr) in H.
    destruct (u64_lamports (amount * LAMPORTS_PER_SOL)); [|discriminate].
    destruct conn as [|b t]; [discriminate|].
    injection H as <- <-. cbn. repeat split; eauto.
  - rewrite (createBuy_malformed _ _ _ _ _ Hm) in H. discriminate.
Qed.

(** X6, witness.  A bid of 5 between the sample addresses. *)
Lemma built_envelope_shape_witness :
  let tx := Spec.buildTransferTransaction payer0 recipient0 5 "blockhash" in
  ["blockhash"] = recentBlockhash tx :: []
  /\ bs58_PublicKey account0 = Some (payerKey tx)
  /\ exists recipient,
       bs58_PublicKey mintAddress0 = Some recipient
       /\ instructions tx
          = [ {| fromPubkey := payerKey tx; toPubkey := recipient;
                 lamports := 5 |} ].
Proof.
  exact (proj1 (built_envelope_shape bs58_PublicKey mintAddress0 account0 5
                  ["blockhash"] []
                  (Spec.buildTransferTransaction payer0 recipient0 5
                     "blockhash"))
           (createBid_run bs58_PublicKey _ _ _ _ _ _
              bs58_account0 bs58_mintAddress0)).
Defined.

(** X7.  Each build asks for its own blockhash: two builds in a row, of
    amounts the transfer instruction accepts, consume two answers of the
    connection, in order, and the second fails when the connection has only
    one. *)
Theorem consecutive_builds
  (PublicKey_new : string -> option PublicKey)
  (mint account : string) (payer recipient : PublicKey) (a1 a2 : number)
  (bh1 bh2 : Blockhash) (rest : Connection) :
  PublicKey_new account = Some payer ->
  PublicKey_new mint = Some recipient ->
  u64_lamports a1 = true ->
  u64_lamports a2 = true ->
  let both :=
    t1 <- Transfer.createBidNftTransaction PublicKey_new mint account a1 ;;
    t2 <- Transfer.createBidNftTransaction PublicKey_new mint account a2 ;;
    ret (t1, t2) in
  both (bh1 :: bh2 :: rest)
  = (Ok (Spec.buildTransferTransaction payer recipient a1 bh1,
         Spec.buildTransferTransaction payer recipient a2 bh2), rest)
  /\ both [bh1] = (Err UpstreamUnavailable, []).
Proof.
  intros Hp Hr H1 H2 both. subst both. unfold bind.
  rewrite !(createBid_run PublicKey_new mint account a1 payer recipient)
    by assumption.
  rewrite H1.
  rewrite !(createBid_run PublicKey_new mint account a2 payer recipient)
    by assumption.
  rewrite H2. split; reflexivity.
Qed.

(** X7, witness.  Two bids between the sample addresses. *)
Lemma consecutive_builds_witness :
  let both :=
    t1 <- Transfer.createBidNftTransaction bs58_PublicKey mintAddress0
            account0 1 ;;
    t2 <- Transfer.createBidNftTransaction bs58_PublicKey mintAddress0
            account0 2 ;;
    ret (t1, t2) in
  both ["first"; "second"]
  = (Ok (Spec.buildTransferTransaction payer0 recipient0 1 "first",
         Spec.buildTransferTransaction payer0 recipient0 2 "second"), [])
  /\ both ["first"] = (Err UpstreamUnavailable, []).
Proof.
  exact (consecutive_builds bs58_PublicKey mintAddress0 account0
           payer0 recipient0 1 2 "first" "second" []
           bs58_account0 bs58_mintAddress0 eq_refl eq_refl).
Defined.

(** * More on the Tensor buy flow *)

Section TensorFlow.

Variable getNftInfo : string -> option Tensor.ItemDetails.
Variable getNftBuyTransaction : Tensor.BuyRequest -> option string.
Variable parseInt : string -> number.

Lemma tensor_buy_run mint buyer conn :
  Tensor.createBuyNftTransaction getNftInfo getNftBuyTransaction parseInt
    mint buyer conn
  = match conn with
    | [] => (Err UpstreamUnavailable, [])
    | bh :: rest =>
        match getNftInfo mint with
        | None => (Err ListingNotFound, rest)
        | Some d =>
            match Tensor.listing d with
            | None => (Err ListingNotFound, rest)
            | Some l =>
                (Ok (getNftBuyTransaction
                       {| Tensor.mintAddress := mint;
                          Tensor.ownerAddress := Tensor.seller l;
                          Tensor.buyerAddress := buyer;
                          Tensor.buyPrice :=
                            getTotalPrice (parseInt (Tensor.price l))
                              (Tensor.sellRoyaltyFeeBPS d) undefined;
                          Tensor.latestBlockhash := bh |}), rest)
            end
        end
    end.
Proof.
  unfold Tensor.createBuyNftTransaction, bind.
  destruct conn as [|bh rest]; cbn; [reflexivity|].
  destruct (getNftInfo mint) as [d|]; [|reflexivity].
  destruct (Tensor.listing d); reflexivity.
Qed.

End TensorFlow.

(** X8.  How the Tensor builder fails.  It asks for the blockhash first:
    on a connection without answer it fails with [UpstreamUnavailable],
    listing or not; otherwise it consumes one answer, and fails with
    [ListingNotFound] exactly when the item or its listing is missing.  It
    validates neither the buyer address nor the price. *)
Theorem tensor_buy_failures
  (getNftInfo : string -> option Tensor.ItemDetails)
  (getNftBuyTransaction : Tensor.BuyRequest -> option string)
  (parseInt : string -> number)
  (mint buyer : string) (conn : Connection) :
  let run :=
    Tensor.createBuyNftTransaction getNftInfo getNftBuyTransaction parseInt
      mint buyer conn in
  let listed :=
    match getNftInfo mint with
    | Some d => Tensor.listing d
    | None => None
    end in
  snd run = tl conn
  /\ (fst run = Err UpstreamUnavailable <-> conn = [])
  /\ (fst run = Err ListingNotFound <-> conn <> [] /\ listed = None)
  /\ fst run <> Err InvalidAccount
  /\ fst run <> Err InvalidAmount.
Proof.
  cbv zeta. rewrite tensor_buy_run.
  destruct conn as [|bh rest]; cbn;
    [|destruct (getNftInfo mint) as [d|]; cbn;
      [destruct (Tensor.listing d); cbn|]];
    repeat split; try discriminate; try tauto;
    try (intros [H _]; now elim H); try (intros [_ H]; discriminate H).
Qed.

(** X9.  A listing price that does not parse is not refused: the buy
    request is sent with the price NaN. *)
Theorem unparsable_price_is_sent
  (getNftInfo : string -> option Tensor.ItemDetails)
  (getNftBuyTransaction : Tensor.BuyRequest -> option string)
  (parseInt : string -> number)
  (mint buyer : string) (d : Tensor.ItemDetails) (l : Tensor.Listing)
  (bh : Blockhash) (rest : Connection) :
  getNftInfo mint = Some d ->
  Tensor.listing d = Some l ->
  isNaN (parseInt (Tensor.price l)) = true ->
  Tensor.createBuyNftTransaction getNftInfo getNftBuyTransaction parseInt
    mint buyer (bh :: rest)
  = (Ok (getNftBuyTransaction
           {| Tensor.mintAddress := mint;
              Tensor.ownerAddress := Tensor.seller l;
              Tensor.buyerAddress := buyer;
              Tensor.buyPrice := nan;
              Tensor.latestBlockhash := bh |}), rest).
Proof.
  intros Hd Hl Hnan. rewrite tensor_buy_run, Hd, Hl.
  rewrite (isNaN_nan _ Hnan), getTotalPrice_nan. reflexivity.
Qed.

(** X9, witness.  A parser that answers NaN on the sample listing. *)
Lemma unparsable_price_is_sent_witness :
  Tensor.createBuyNftTransaction (fun _ => Some itemDetails0)
    (fun r => if isNaN (Tensor.buyPrice r) then Some "sent" else None)
    (fun _ => nan) mintAddress0 account0 ["blockhash"]
  = (Ok (Some "sent"), []).
Proof.
  exact (unparsable_price_is_sent (fun _ => Some itemDetails0)
    (fun r => if isNaN (Tensor.buyPrice r) then Some "sent" else None)
    (fun _ => nan) mintAddress0 account0 itemDetails0 listing0
    "blockhash" [] eq_refl eq_refl eq_refl).
Defined.

(** X10.  A listing priced at a multiple of 200 lamports is bought for
    exactly 203/200 of its price: the 1.5 % fee is then an integer. *)
Theorem buy_price_exact_on_multiples_of_200
  (getNftInfo : string -> option Tensor.ItemDetails)
  (getNftBuyTransaction : Tensor.BuyRequest -> option string)
  (parseInt : string -> number)
  (mint buyer : string) (d : Tensor.ItemDetails) (l : Tensor.Listing)
  (bh : Blockhash) (rest : Connection) (k : Z) :
  getNftInfo mint = Some d ->
  Tensor.listing d = Some l ->
  parseInt (Tensor.price l) = Z2F (200 * k) ->
  (0 <= k)%Z -> (200 * k * 150 < 2 ^ 53)%Z ->
  Tensor.createBuyNftTransaction getNftInfo getNftBuyTransaction parseInt
    mint buyer (bh :: rest)
  = (Ok (getNftBuyTransaction
           {| Tensor.mintAddress := mint;
              Tensor.ownerAddress := Tensor.seller l;
              Tensor.buyerAddress := buyer;
              Tensor.buyPrice := Z2F (203 * k);
              Tensor.latestBlockhash := bh |}), rest).
Proof.
  intros Hd Hl Hp Hk Hb. rewrite tensor_buy_run, Hd, Hl, Hp.
  change (getTotalPrice (Z2F (200 * k)) (Tensor.sellRoyaltyFeeBPS d) undefined)
    with (total (pricing (Z2F (200 * k)) (Z2F 0) undefined)).
  assert (Q : (200 * k * 150 ÷ 10000 = 3 * k)%Z).
  { replace (200 * k * 150)%Z with (3 * k * 10000)%Z by ring.
    apply Z.quot_mul. lia. }
  assert (M : (200 * k * 150 mod 10000 = 0)%Z).
  { replace (200 * k * 150)%Z with (3 * k * 10000)%Z by ring.
    apply Z.mod_mul. lia. }
  rewrite pricing_on_exact_quotients; rewrite ?Q, ?Z.mul_0_r; try assumption;
    change (0 ÷ 10000)%Z with 0%Z; try reflexivity; try lia.
  cbn [total truthy].
  replace (200 * k + 0 + 3 * k)%Z with (203 * k)%Z by lia. reflexivity.
Qed.

(** X10, witness.  The sample listing of 1_000_000 lamports is bought for
    1_015_000. *)
Lemma buy_price_exact_on_multiples_of_200_witness :
  Tensor.createBuyNftTransaction (fun _ => Some itemDetails0)
    (fun r => if looseEq (Tensor.buyPrice r) 1015000 then Some "unsigned"
              else None)
    (fun _ => 1000000) mintAddress0 account0 ["blockhash"]
  = (Ok (Some "unsigned"), []).
Proof.
  exact (buy_price_exact_on_multiples_of_200 (fun _ => Some itemDetails0)
    (fun r => if looseEq (Tensor.buyPrice r) 1015000 then Some "unsigned"
              else None)
    (fun _ => 1000000) mintAddress0 account0 itemDetails0 listing0
    "blockhash" [] 5000 eq_refl eq_refl eq_refl ltac:(lia) ltac:(lia)).
Defined.

(** * The routes over the SOL-transfer builders *)

Section TransferRoutes.

Variable getNftInfo : string -> option Item.
Variable formatTokenAmount : number -> string.
Variable parseInt : string -> number.
Variable toNumber : string -> number.
Variable PublicKey_new : string -> option PublicKey.
Variable serialize : VersionedTransaction -> string.

(** The buy route, case by case. *)
Lemma postBuy_run itemId account c :
  TransferRoute.postBuy getNftInfo toNumber PublicKey_new serialize
    itemId account c
  = match getNftInfo itemId with
    | None =>
        ({| body := ActionError ("Item " ++ itemId ++ " not found");
            status := 422 |}, c)
    | Some item =>
        match listingPrice item with
        | value (String a p) =>
            match PublicKey_new account,
                  PublicKey_new (Tensor.onchainId (details item)) with
            | Some payer, Some recipient =>
                let lamports := toNumber (String a p) * LAMPORTS_PER_SOL in
                if u64_lamports lamports then
                  match c with
                  | bh :: rest =>
                      ({| body :=
                            PostBody
                              (serialize
                                 (Spec.buildTransferTransaction payer
                                    recipient lamports bh));
                          status := 200 |}, rest)
                  | [] => (failedToPrepare, c)
                  end
                else (failedToPrepare, c)
            | _, _ => (failedToPrepare, c)
            end
        | _ =>
            ({| body :=
                  ActionError ("Item " ++ itemId ++ " is not listed for sale");
                status := 422 |}, c)
        end
    end.
Proof.
  unfold TransferRoute.postBuy.
  destruct (getNftInfo itemId) as [item|]; [|reflexivity].
  destruct (listingPrice item) as [| |[|a p]]; try reflexivity.
  cbn [truthy String.eqb negb].
  destruct (keys_decode PublicKey_new account
              (Tensor.onchainId (details item)))
    as [(payer & recipient & Hp & Hr)|Hm].
  - rewrite (createBuy_run _ _ _ _ _ _ _ Hp Hr), Hp, Hr. cbv zeta.
    destruct (u64_lamports _); [|reflexivity].
    destruct c as [|bh rest]; reflexivity.
  - rewrite (createBuy_malformed _ _ _ _ _ Hm).
    destruct Hm as [Hm|Hm]; rewrite Hm; [reflexivity|].
    destruct (PublicKey_new account); reflexivity.
Qed.

(** The offer route, case by case. *)
Lemma postOffer_run itemId account offerAmount c :
  TransferRoute.postOffer getNftInfo PublicKey_new serialize
    itemId account offerAmount c
  = match getNftInfo itemId with
    | None =>
        ({| body := ActionError ("Item " ++ itemId ++ " not found");
            status := 422 |}, c)
    | Some item =>
        match PublicKey_new account,
              PublicKey_new (Tensor.onchainId (details item)) with
        | Some payer, Some recipient =>
            let lamports := offerAmount * LAMPORTS_PER_SOL in
            if u64_lamports lamports then
              match c with
              | bh :: rest =>
                  ({| body :=
                        PostBody
                          (serialize
                             (Spec.buildTransferTransaction payer recipient
                                lamports bh));
                      status := 200 |}, rest)
              | [] => (failedToPrepare, c)
              end
            else (failedToPrepare, c)
        | _, _ => (failedToPrepare, c)
        end
    end.
Proof.
  unfold TransferRoute.postOffer, Route.offerLamports.
  destruct (getNftInfo itemId) as [item|]; [|reflexivity].
  destruct (keys_decode PublicKey_new account
              (Tensor.onchainId (details item)))
    as [(payer & recipient & Hp & Hr)|Hm].
  - rewrite (createBid_run _ _ _ _ _ _ _ Hp Hr), Hp, Hr. cbv zeta.
    destruct (u64_lamports _); [|reflexivity].
    destruct c as [|bh rest]; reflexivity.
  - rewrite (createBid_malformed _ _ _ _ _ Hm).
    destruct Hm as [Hm|Hm]; rewrite Hm; [reflexivity|].
    destruct (PublicKey_new account); reflexivity.
Qed.

End TransferRoutes.

(** X11.  What the item route offers.  For an item that is found the answer
    is 200, and the offer action closes the list of actions.  Without a
    non-empty listing price it is the only action and the label is
    'Make an Offer'; with one, the BUY action built around the formatted
    price precedes it.  A formatted price that is the empty string is not
    filtered out: it stays in the list, as a string. *)
Theorem getItem_actions
  (getNftInfo : string -> option Item)
  (formatTokenAmount : number -> string) (parseInt : string -> number)
  (itemId : string) (item : Item) :
  getNftInfo itemId = Some item ->
  let offer :=
    entry_action
      {| action_label := "Make an Offer";
         action_href := "/api/item/" ++ itemId ++ "/offer";
         action_parameters := Some offerParameters |} in
  let buy uiPrice :=
    entry_action
      {| action_label := "BUY " ++ uiPrice ++ " SOL";
         action_href := "/api/item/" ++ itemId ++ "/buy";
         action_parameters := None |} in
  exists r,
    TransferRoute.getItem getNftInfo formatTokenAmount parseInt itemId
    = {| body := GetBody r; status := 200 |}
    /\ match listingPrice item with
       | value (String a p) =>
           match formatTokenAmount
                   (parseInt (String a p) / LAMPORTS_PER_SOL) with
           | EmptyString =>
               actions r = [entry_string ""; offer]
               /\ label r = "Make an Offer"
           | uiPrice =>
               actions r = [buy uiPrice; offer]
               /\ label r = uiPrice ++ " SOL"
           end
       | _ => actions r = [offer] /\ label r = "Make an Offer"
       end.
Proof.
  intros Hitem offer buy. unfold TransferRoute.getItem. rewrite Hitem.
  eexists. split; [reflexivity|]. cbn [actions label].
  unfold TransferRoute.uiPriceOf, Route.uiPrice.
  destruct (listingPrice item) as [| |[|a p]]; cbn; try (split; reflexivity).
  destruct (formatTokenAmount _) as [|b s]; cbn; split; reflexivity.
Qed.

(** X11, witness.  The sample item, listed at 1_000_000 lamports and
    displayed as 0.001 SOL. *)
Lemma getItem_actions_witness :
  exists r,
    TransferRoute.getItem (fun _ => Some item0) (fun _ => "0.001")
      (fun _ => 1000000) mintAddress0
    = {| body := GetBody r; status := 200 |}
    /\ actions r
       = [ entry_action
             {| action_label := "BUY 0.001 SOL";
                action_href :=
                  "/api/item/7DVeeik8cDUvHgqrTetG6fcDUHHZ8rW7dFHp1SsohKML/buy";
                action_parameters := None |};
           entry_action
             {| action_label := "Make an Offer";
                action_href :=
                  "/api/item/7DVeeik8cDUvHgqrTetG6fcDUHHZ8rW7dFHp1SsohKML/offer";
                action_parameters := Some offerParameters |} ]
    /\ label r = "0.001 SOL".
Proof.
  exact (getItem_actions (fun _ => Some item0) (fun _ => "0.001")
           (fun _ => 1000000) mintAddress0 item0 eq_refl).
Defined.

Lemma getItem_actions_aux
  (getNftInfo : string -> option Item)
  (formatTokenAmount : number -> string) (parseInt : string -> number)
  (itemId : string) (item : Item) :
  getNftInfo itemId = Some item ->
  exists r,
    TransferRoute.getItem getNftInfo formatTokenAmount parseInt itemId
    = {| body := GetBody r; status := 200 |}
    /\ (List.length (actions r) = 1%nat
        <-> truthy (listingPrice item) = false).
Proof.
  intros Hitem. unfold TransferRoute.getItem. rewrite Hitem.
  eexists. split; [reflexivity|]. cbn [actions].
  unfold TransferRoute.uiPriceOf.
  destruct (listingPrice item) as [| |[|a p]]; cbn; try tauto.
  destruct (formatTokenAmount _); cbn; split; discriminate.
Qed.

(** X12.  The item route and the buy route agree on what is for sale: for
    an item that is found, the item route lists the offer action alone
    exactly when the buy route answers 422. *)
Theorem buy_advertised_iff_served
  (getNftInfo : string -> option Item)
  (formatTokenAmount : number -> string) (parseInt toNumber : string -> number)
  (PublicKey_new : string -> option PublicKey)
  (serialize : VersionedTransaction -> string)
  (itemId account : string) (item : Item) (c : Connection) :
  getNftInfo itemId = Some item ->
  exists r,
    TransferRoute.getItem getNftInfo formatTokenAmount parseInt itemId
    = {| body := GetBody r; status := 200 |}
    /\ (List.length (actions r) = 1%nat
        <-> status (fst (TransferRoute.postBuy getNftInfo toNumber
                           PublicKey_new serialize itemId account c))
            = 422%nat).
Proof.
  intros Hitem.
  destruct (getItem_actions_aux getNftInfo formatTokenAmount parseInt
              itemId item Hitem) as (r & Hr & Hlen).
  exists r. split; [exact Hr|].
  rewrite Hlen, postBuy_run, Hitem.
  destruct (listingPrice item) as [| |[|a p]]; cbn; try tauto.
  split; [discriminate|].
  destruct (PublicKey_new account); [|discriminate].
  destruct (PublicKey_new _); [|discriminate].
  cbv zeta. destruct (u64_lamports _); [|discriminate].
  destruct c; discriminate.
Qed.

(** X12, witness.  The sample item is listed: two actions, and no 422. *)
Lemma buy_advertised_iff_served_witness :
  exists r,
    TransferRoute.getItem (fun _ => Some item0) (fun _ => "0.001")
      (fun _ => 1000000) mintAddress0
    = {| body := GetBody r; status := 200 |}
    /\ (List.length (actions r) = 1%nat
        <-> status (fst (TransferRoute.postBuy (fun _ => Some item0)
                           (fun _ => 1000000) bs58_PublicKey serialize0
                           mintAddress0 account0 ["blockhash"]))
            = 422%nat).
Proof.
  exact (buy_advertised_iff_served (fun _ => Some item0) (fun _ => "0.001")
           (fun _ => 1000000) (fun _ => 1000000) bs58_PublicKey
           serialize0 mintAddress0 account0 item0 ["blockhash"] eq_refl).
Defined.

(** X13.  The buy route of the transfer variant.  It consumes a blockhash
    exactly when it answers 200.  A 200 answer carries the serialized
    envelope of one transfer, from the account of the request to the item's
    [onchainId] (the listing's seller is not read), of the listing price
    times [LAMPORTS_PER_SOL], which is then an integer of the u64 range.  It
    answers 500 exactly when the item is listed but an address is
    malformed, the price times [LAMPORTS_PER_SOL] is not an integer of the
    u64 range, or no blockhash can be had. *)
Theorem transfer_postBuy_outcome
  (getNftInfo : string -> option Item) (toNumber : string -> number)
  (PublicKey_new : string -> option PublicKey)
  (serialize : VersionedTransaction -> string)
  (itemId account : string) (c : Connection) :
  let r :=
    TransferRoute.postBuy getNftInfo toNumber PublicKey_new serialize
      itemId account c in
  snd r = (if Nat.eqb (status (fst r)) 200 then tl c else c)
  /\ (status (fst r) = 200%nat ->
      exists item p payer recipient bh,
        getNftInfo itemId = Some item
        /\ listingPrice item = value p
        /\ PublicKey_new account = Some payer
        /\ PublicKey_new (Tensor.onchainId (details item)) = Some recipient
        /\ u64_lamports (toNumber p * LAMPORTS_PER_SOL) = true
        /\ c = bh :: snd r
        /\ body (fst r)
           = PostBody
               (serialize
                  (Spec.buildTransferTransaction payer recipient
                     (toNumber p * LAMPORTS_PER_SOL) bh)))
  /\ (status (fst r) = 500%nat <->
      exists item p,
        getNftInfo itemId = Some item
        /\ listingPrice item = value p
        /\ truthy (listingPrice item) = true
        /\ (PublicKey_new account = None
            \/ PublicKey_new (Tensor.onchainId (details item)) = None
            \/ u64_lamports (toNumber p * LAMPORTS_PER_SOL) = false
            \/ c = [])).
Proof.
  cbv zeta. rewrite postBuy_run.
  destruct (getNftInfo itemId) as [item|] eqn:Hitem; cbn.
  2:{ repeat split; try discriminate; intros (i & q & H & _); discriminate. }
  destruct (listingPrice item) as [| |[|a p]] eqn:Hp; cbn.
  1-3: repeat split; try discriminate;
       intros (i & q & H & _ & T & _); injection H as <-; rewrite Hp in T;
       discriminate.
  assert (Hlisted : (exists i q, Some item = Some i
            /\ listingPrice i = value q
            /\ truthy (listingPrice i) = true
            /\ (PublicKey_new account = None
                \/ PublicKey_new (Tensor.onchainId (details i)) = None
                \/ u64_lamports (toNumber q * LAMPORTS_PER_SOL) = false
                \/ c = []))
          <-> PublicKey_new account = None
              \/ PublicKey_new (Tensor.onchainId (details item)) = None
              \/ u64_lamports (toNumber (String a p) * LAMPORTS_PER_SOL)
                 = false
              \/ c = []).
  { split.
    - intros (i & q & H & Hq & _ & D). injection H as <-.
      rewrite Hp in Hq. injection Hq as <-. exact D.
    - intros D. exists item, (String a p). rewrite Hp. auto. }
  rewrite Hlisted. clear Hlisted.
  destruct (PublicKey_new account) as [payer|] eqn:Ha; cbn;
    [|repeat split; try discriminate; auto].
  destruct (PublicKey_new (Tensor.onchainId (details item))) as [recipient|]
    eqn:Hm; cbn; [|repeat split; try discriminate; auto].
  destruct (u64_lamports (toNumber (String a p) * LAMPORTS_PER_SOL)) eqn:Hu;
    cbn; [|repeat split; try discriminate; auto].
  destruct c as [|bh rest]; cbn; repeat split; try discriminate; auto.
  - intros _. exists item, (String a p), payer, recipient, bh. auto 10.
  - intros [E|[E|[E|E]]]; discriminate.
Qed.

(** X13, witness.  The buy route on the sample item with good addresses
    and a blockhash at hand: a listing of 1_000_000 is answered 200 with
    the transfer to the item's address, a listing of 20_000_000_000, whose
    product with [LAMPORTS_PER_SOL] leaves the u64 range, is answered 500
    and the blockhash is not asked for. *)
Lemma transfer_postBuy_outcome_witness :
  (exists item p payer recipient bh,
     Some item0 = Some item
     /\ listingPrice item = value p
     /\ bs58_PublicKey account0 = Some payer
     /\ bs58_PublicKey (Tensor.onchainId (details item)) = Some recipient
     /\ u64_lamports (1000000 * LAMPORTS_PER_SOL) = true
     /\ ["blockhash"] = bh :: []
     /\ PostBody "blockhash"
        = PostBody
            (serialize0
               (Spec.buildTransferTransaction payer recipient
                  (1000000 * LAMPORTS_PER_SOL) bh)))
  /\ (let r :=
        TransferRoute.postBuy (fun _ => Some item0) (fun _ => 20000000000)
          bs58_PublicKey serialize0 mintAddress0 account0 ["blockhash"] in
      status (fst r) = 500%nat /\ snd r = ["blockhash"]).
Proof.
  split.
  - assert (E : TransferRoute.postBuy (fun _ => Some item0)
                  (fun _ => 1000000) bs58_PublicKey serialize0 mintAddress0
                  account0 ["blockhash"]
                = ({| body := PostBody "blockhash"; status := 200 |}, [])).
    { rewrite postBuy_run. cbn [listingPrice details item0 itemDetails0
        Tensor.listing Tensor.price listing0 Tensor.onchainId].
      rewrite bs58_account0, bs58_mintAddress0. reflexivity. }
    pose proof (proj1 (proj2
      (transfer_postBuy_outcome (fun _ => Some item0) (fun _ => 1000000)
         bs58_PublicKey serialize0 mintAddress0 account0 ["blockhash"])))
      as H.
    cbv zeta in H. rewrite E in H. exact (H eq_refl).
  - pose proof
      (transfer_postBuy_outcome (fun _ => Some item0)
         (fun _ => 20000000000) bs58_PublicKey serialize0 mintAddress0
         account0 ["blockhash"]) as (Hc & _ & H500).
    cbv zeta in Hc, H500.
    assert (S : status (fst (TransferRoute.postBuy (fun _ => Some item0)
                  (fun _ => 20000000000) bs58_PublicKey serialize0
                  mintAddress0 account0 ["blockhash"])) = 500%nat).
    { apply H500. exists item0, "1000000".
      repeat split. right; right; left. reflexivity. }
    cbv zeta. split; [exact S|]. rewrite S in Hc. exact Hc.
Defined.

(** X14.  The offer route of the transfer variant checks nothing about the
    amount or the listing itself: it never answers 400 and it answers 422
    exactly when the item is not found.  The amount is checked only inside
    the transfer instruction: for an item found, listed or not, the answer
    is 500 exactly when an address is malformed, the amount times
    [LAMPORTS_PER_SOL] is not an integer of the u64 range (NaN, a negative
    offer, an offer such as 1.07 SOL) or no blockhash can be had, and no
    blockhash is then consumed; otherwise it is 200 with the envelope of
    one transfer of [offerAmount * LAMPORTS_PER_SOL], and one blockhash is
    consumed. *)
Theorem transfer_postOffer_outcome
  (getNftInfo : string -> option Item)
  (PublicKey_new : string -> option PublicKey)
  (serialize : VersionedTransaction -> string)
  (itemId account : string) (offerAmount : number) (c : Connection) :
  let r :=
    TransferRoute.postOffer getNftInfo PublicKey_new serialize
      itemId account offerAmount c in
  let lamports := offerAmount * LAMPORTS_PER_SOL in
  status (fst r) <> 400%nat
  /\ (status (fst r) = 422%nat <-> getNftInfo itemId = None)
  /\ snd r = (if Nat.eqb (status (fst r)) 200 then tl c else c)
  /\ forall item,
       getNftInfo itemId = Some item ->
       (PublicKey_new account = None
        \/ PublicKey_new (Tensor.onchainId (details item)) = None
        \/ u64_lamports lamports = false
        \/ c = [] ->
        r = (failedToPrepare, c))
       /\ (forall payer recipient bh rest,
             PublicKey_new account = Some payer ->
             PublicKey_new (Tensor.onchainId (details item))
             = Some recipient ->
             u64_lamports lamports = true ->
             c = bh :: rest ->
             r = ({| body :=
                       PostBody
                         (serialize
                            (Spec.buildTransferTransaction payer recipient
                               lamports bh));
                     status := 200 |}, rest)).
Proof.
  cbv zeta. rewrite postOffer_run.
  destruct (getNftInfo itemId) as [item|] eqn:Hitem; cbn.
  2:{ split; [discriminate|]. split; [tauto|]. split; [reflexivity|].
      intros i H. discriminate H. }
  destruct (PublicKey_new account) as [payer|] eqn:Ha;
    [destruct (PublicKey_new (Tensor.onchainId (details item)))
       as [recipient|] eqn:Hm;
     [destruct (u64_lamports (offerAmount * LAMPORTS_PER_SOL)) eqn:Hu;
      [destruct c as [|bh rest]|]|]|];
    cbn;
    (split; [discriminate|]);
    (split; [split; intros E; discriminate E|]);
    (split; [reflexivity|]);
    intros i H; injection H as <-; rewrite ?Hm; split;
    try (intros _; reflexivity);
    try (intros p r b t Hp Hr Hv Hc; discriminate).
  - intros [E|[E|[E|E]]]; discriminate E.
  - intros p r b t Hp Hr _ Hc. injection Hp as <-. injection Hr as <-.
    injection Hc as <- <-. reflexivity.
Qed.

(** X14, witness.  Offers on the sample item, with good addresses and a
    blockhash at hand: 1.5 SOL is answered 200; NaN, -1 SOL and 1.07 SOL,
    whose product with [LAMPORTS_PER_SOL] is not an integer, are answered
    500 and the blockhash is not asked for. *)
Lemma transfer_postOffer_outcome_witness :
  let postOffer amount :=
    TransferRoute.postOffer (fun _ => Some item0) bs58_PublicKey
      serialize0 mintAddress0 account0 amount ["blockhash"] in
  postOffer (3 / 2) = ({| body := PostBody "blockhash"; status := 200 |}, [])
  /\ postOffer nan = (failedToPrepare, ["blockhash"])
  /\ postOffer (-1) = (failedToPrepare, ["blockhash"])
  /\ postOffer (107 / 100) = (failedToPrepare, ["blockhash"]).
Proof.
  cbv zeta.
  pose (spec := fun amount =>
    proj2 (proj2 (proj2
      (transfer_postOffer_outcome (fun _ => Some item0) bs58_PublicKey
         serialize0 mintAddress0 account0 amount ["blockhash"])))
      item0 eq_refl).
  split; [|split; [|split]].
  - exact (proj2 (spec (3 / 2)) payer0 recipient0 "blockhash" []
             bs58_account0 bs58_mintAddress0 eq_refl eq_refl).
  - exact (proj1 (spec nan) (or_intror (or_intror (or_introl eq_refl)))).
  - exact (proj1 (spec (-1)) (or_intror (or_intror (or_introl eq_refl)))).
  - exact (proj1 (spec (107 / 100))
             (or_intror (or_intror (or_introl eq_refl)))).
Defined.

(** * The routes over the Tensor marketplace client *)

(** X15.  The offer route validates before it fetches anything: it answers
    400 exactly when the item identifier is empty, the amount parameter is
    empty or the amount parses to NaN, whether the item exists or not, and
    it then leaves the connection untouched.  Any other amount, negative or
    infinite, passes. *)
Theorem tensor_postOffer_validates_first
  (getNftInfo : string -> option Item)
  (placeNftBid : TensorRoute.BidRequest -> option string)
  (parseFloat : string -> number)
  (itemId offerAmountParam account : string) (c : Connection) :
  let r :=
    TensorRoute.postOffer getNftInfo placeNftBid parseFloat
      itemId offerAmountParam account c in
  (status (fst r) = 400%nat <->
     itemId = "" \/ offerAmountParam = ""
     \/ isNaN (parseFloat offerAmountParam) = true)
  /\ (status (fst r) = 400%nat -> snd r = c).
Proof.
  cbv zeta. unfold TensorRoute.postOffer.
  destruct (String.eqb_spec itemId "") as [->|Hid]; cbn.
  { repeat split; auto. }
  destruct (String.eqb_spec offerAmountParam "") as [->|Hparam]; cbn.
  { repeat split; auto. }
  destruct (isNaN (parseFloat offerAmountParam)) eqn:Hnan; cbn.
  { repeat split; auto. }
  assert (Hno : ~ (itemId = "" \/ offerAmountParam = "" \/ false = true))
    by (intros [H|[H|H]]; congruence).
  destruct (getNftInfo itemId) as [item|]; cbn.
  2:{ split; [split; [discriminate | tauto] | discriminate]. }
  destruct c as [|bh rest]; cbn.
  { split; [split; [discriminate | tauto] | discriminate]. }
  rewrite isNaN_lamports, Hnan.
  destruct (falsy_string _); cbn;
    (split; [split; [discriminate | tauto] | discriminate]).
Qed.

(** X16.  Once the amount has passed, it cannot make the offer route fail:
    for an item that is found, the marketplace is asked to bid the parsed
    amount times [LAMPORTS_PER_SOL] on the item's [onchainId], for the
    account of the request, with the blockhash just fetched; the answer is
    200 with the transaction it returns, and 500 only when it returns none
    (or an empty one) or when no blockhash can be had. *)
Theorem tensor_postOffer_outcome
  (getNftInfo : string -> option Item)
  (placeNftBid : TensorRoute.BidRequest -> option string)
  (parseFloat : string -> number)
  (itemId offerAmountParam account : string) (item : Item) :
  itemId <> "" -> offerAmountParam <> "" ->
  isNaN (parseFloat offerAmountParam) = false ->
  getNftInfo itemId = Some item ->
  let request bh :=
    {| TensorRoute.targetID := Tensor.onchainId (details item);
       TensorRoute.ownerAddress := Tensor.owner (details item);
       TensorRoute.price := parseFloat offerAmountParam * LAMPORTS_PER_SOL;
       TensorRoute.buyerAddress := account;
       TensorRoute.latestBlockhash := bh |} in
  TensorRoute.postOffer getNftInfo placeNftBid parseFloat
    itemId offerAmountParam account []
  = (failedToPrepare, [])
  /\ forall bh rest,
       TensorRoute.postOffer getNftInfo placeNftBid parseFloat
         itemId offerAmountParam account (bh :: rest)
       = (match placeNftBid (request bh) with
          | Some (String a t) =>
              {| body := PostBody (String a t); status := 200 |}
          | _ => failedToPrepare
          end, rest)
       /\ Route.computeBidAmount (parseFloat offerAmountParam)
          = Ok (TensorRoute.price (request bh)).
Proof.
  intros Hid Hparam Hnan Hitem request. unfold TensorRoute.postOffer.
  apply String.eqb_neq in Hid. apply String.eqb_neq in Hparam.
  rewrite Hid, Hparam, Hnan, Hitem. cbn.
  split; [reflexivity|]. intros bh rest.
  rewrite isNaN_lamports, Hnan. split.
  - destruct (placeNftBid _) as [[|a t]|]; reflexivity.
  - unfold Route.computeBidAmount. rewrite Hnan. cbv zeta.
    rewrite isNaN_lamports, Hnan. reflexivity.
Qed.

(** X16, witness.  An offer of 1.5 SOL on the sample item. *)
Lemma tensor_postOffer_outcome_witness :
  TensorRoute.postOffer (fun _ => Some item0)
    (fun r => if looseEq (TensorRoute.price r) 1500000000 then Some "bid"
              else None)
    (fun _ => 1.5) mintAddress0 "1.5" account0 ["blockhash"]
  = ({| body := PostBody "bid"; status := 200 |}, []).
Proof.
  exact (proj1 (proj2
           (tensor_postOffer_outcome (fun _ => Some item0)
              (fun r => if looseEq (TensorRoute.price r) 1500000000
                        then Some "bid" else None)
              (fun _ => 1.5) mintAddress0 "1.5" account0 item0
              ltac:(discriminate) ltac:(discriminate) eq_refl eq_refl)
           "blockhash" [])).
Defined.

(** X17.  The buy route looks the item up twice: once under the identifier
    of the request, and, in the builder, once more under the item's
    [onchainId].  The seller and the price of the request to the
    marketplace are those of the second lookup, and the answer is 500 when
    the second lookup finds no listing, whatever the first one found. *)
Theorem tensor_postBuy_looks_up_twice
  (getNftInfo : string -> option Item)
  (getNftBuyTransaction : Tensor.BuyRequest -> option string)
  (parseInt10 : string -> number)
  (itemId account : string) (item : Item)
  (bh : Blockhash) (rest : Connection) :
  getNftInfo itemId = Some item ->
  truthy (listingPrice item) = true ->
  TensorRoute.postBuy getNftInfo getNftBuyTransaction parseInt10
    itemId account (bh :: rest)
  = (match getNftInfo (Tensor.onchainId (details item)) with
     | Some item2 =>
         match Tensor.listing (details item2) with
         | Some l2 =>
             match
               getNftBuyTransaction
                 {| Tensor.mintAddress := Tensor.onchainId (details item);
                    Tensor.ownerAddress := Tensor.seller l2;
                    Tensor.buyerAddress := account;
                    Tensor.buyPrice :=
                      getTotalPrice (parseInt10 (Tensor.price l2))
                        (Tensor.sellRoyaltyFeeBPS (details item2)) undefined;
                    Tensor.latestBlockhash := bh |}
             with
             | Some (String a t) =>
                 {| body := PostBody (String a t); status := 200 |}
             | _ => failedToPrepare
             end
         | None => failedToPrepare
         end
     | None => failedToPrepare
     end, rest).
Proof.
  intros Hitem Hlisted. unfold TensorRoute.postBuy.
  rewrite Hitem, Hlisted, tensor_buy_run.
  destruct (getNftInfo (Tensor.onchainId (details item))) as [item2|]; cbn;
    [|reflexivity].
  destruct (Tensor.listing (details item2)) as [l2|]; cbn; [|reflexivity].
  destruct (getNftBuyTransaction _) as [[|a t]|]; reflexivity.
Qed.

(** X17, witness.  The sample item, found under both identifiers. *)
Lemma tensor_postBuy_looks_up_twice_witness :
  TensorRoute.postBuy (fun _ => Some item0)
    (fun r => if looseEq (Tensor.buyPrice r) 1015000 then Some "unsigned"
              else None)
    (fun _ => 1000000) mintAddress0 account0 ["blockhash"]
  = ({| body := PostBody "unsigned"; status := 200 |}, []).
Proof.
  exact (tensor_postBuy_looks_up_twice (fun _ => Some item0)
           (fun r => if looseEq (Tensor.buyPrice r) 1015000
                     then Some "unsigned" else None)
           (fun _ => 1000000) mintAddress0 account0 item0 "blockhash" []
           eq_refl eq_refl).
Defined.

(** X18.  The item route of the Tensor variant.  An empty identifier is
    answered 400 without a lookup.  Otherwise, for an item that is found,
    the answer is 200; its description is 'Buy an NFT!', whatever the
    item's own; and it lists the offer action alone exactly when the buy
    route of the variant answers 422. *)
Theorem tensor_getItem_outcome
  (getNftInfo : string -> option Item)
  (getNftBuyTransaction : Tensor.BuyRequest -> option string)
  (formatTokenAmount : number -> string)
  (parseInt parseInt10 : string -> number)
  (itemId account : string) (c : Connection) :
  TensorRoute.getItem getNftInfo formatTokenAmount parseInt ""
  = {| body := ActionError "Item ID is required"; status := 400 |}
  /\ forall item,
       itemId <> "" -> getNftInfo itemId = Some item ->
       exists r,
         TensorRoute.getItem getNftInfo formatTokenAmount parseInt itemId
         = {| body := GetBody r; status := 200 |}
         /\ description r = "Buy an NFT!"
         /\ (List.length (actions r) = 1%nat
             <-> status (fst (TensorRoute.postBuy getNftInfo
                                getNftBuyTransaction parseInt10
                                itemId account c))
                 = 422%nat).
Proof.
  split; [reflexivity|]. intros item Hid Hitem.
  unfold TensorRoute.getItem, TensorRoute.postBuy.
  apply String.eqb_neq in Hid. rewrite Hid, Hitem.
  eexists. split; [reflexivity|]. split; [reflexivity|].
  cbn [actions]. unfold TensorRoute.uiPriceOf.
  destruct (listingPrice item) as [| |[|a p]]; cbn; try tauto.
  split.
  - destruct (formatTokenAmount _); discriminate.
  - intros H. exfalso. revert H.
    destruct (Tensor.createBuyNftTransaction _ _ _ _ _ c) as [[t|e] c'];
      cbn; [|discriminate].
    destruct (falsy_string t); discriminate.
Qed.

(** X18, witness.  The sample item. *)
Lemma tensor_getItem_outcome_witness :
  exists r,
    TensorRoute.getItem (fun _ => Some item0) (fun _ => "0.001")
      (fun _ => 1000000) mintAddress0
    = {| body := GetBody r; status := 200 |}
    /\ description r = "Buy an NFT!"
    /\ (List.length (actions r) = 1%nat
        <-> status (fst (TensorRoute.postBuy (fun _ => Some item0)
                           (fun _ => Some "unsigned") (fun _ => 1000000)
                           mintAddress0 account0 ["blockhash"]))
            = 422%nat).
Proof.
  exact (proj2 (tensor_getItem_outcome (fun _ => Some item0)
                  (fun _ => Some "unsigned") (fun _ => "0.001")
                  (fun _ => 1000000) (fun _ => 1000000)
                  mintAddress0 account0 ["blockhash"])
           item0 ltac:(discriminate) eq_refl).
Defined.
